(** * AutoGitUploader: the upload worker and the submission form

    A shallow embedding of [AutoGitUploader.py].

    - Python [str] values are [string]s whose characters are code points
      below 256; [str.lower] is modelled on that range.
    - The libraries the program calls ([tempfile], [zipfile], [tarfile],
      [git], [requests], [shutil], [os.path.exists]) are an environment
      [Env] of operations over an abstract outside world [W]; each may
      raise.  Only subclasses of [Exception] are modelled, which are the
      ones [WorkerThread.run] catches.
    - Qt signals emitted by the worker and calls into the environment are
      recorded, in order, in a trace of [event]s. *)

From Stdlib Require Import String Ascii List ZArith Lia Bool Sorted.
Import ListNotations.
Local Open Scope string_scope.
Local Open Scope Z_scope.

(** ** Strings *)

Module PyStr.

(** [str.lower] on one code point below 256: A-Z and the Latin-1
    capitals (0xC0-0xDE except the multiplication sign 0xD7). *)
Definition lower_char (c : ascii) : ascii :=
  let n := Z.of_N (N_of_ascii c) in
  if ((65 <=? n) && (n <=? 90)) || ((192 <=? n) && (n <=? 222) && negb (n =? 215))
  then ascii_of_N (Z.to_N (n + 32))
  else c.

Fixpoint lower (s : string) : string :=
  match s with
  | EmptyString => EmptyString
  | String c s' => String (lower_char c) (lower s')
  end.

(** [s.rfind(c)] for a one-character [c]: index of the last occurrence,
    or -1.  [i] is the index of the head of [s], [last] the best so far. *)
Fixpoint rfind_from (c : ascii) (s : string) (i last : Z) : Z :=
  match s with
  | EmptyString => last
  | String a s' => rfind_from c s' (i + 1) (if Ascii.eqb a c then i else last)
  end.

Definition rfind (c : ascii) (s : string) : Z := rfind_from c s 0 (-1).

(** [s[:k]] and [s[k:]] for [0 <= k]. *)
Definition slice_to (k : Z) (s : string) : string :=
  substring 0 (Z.to_nat k) s.

Definition slice_from (k : Z) (s : string) : string :=
  substring (Z.to_nat k) (String.length s - Z.to_nat k) s.

(** [s[i:i+1] != c] *)
Definition char_differs (s : string) (i : Z) (c : ascii) : bool :=
  match String.get (Z.to_nat i) s with
  | Some a => negb (Ascii.eqb a c)
  | None => true
  end.

(** The characters [os.path.splitext] looks for. *)
Definition is_separator (c : ascii) : bool :=
  Ascii.eqb c "."%char || Ascii.eqb c "/"%char || Ascii.eqb c "\"%char.

End PyStr.

(** ** [os.path.splitext] *)

Module OsPath.
Import PyStr.

(** The [while filenameIndex < dotIndex] loop of [genericpath._splitext]:
    [true] when a character other than [extsep] is met before [dotIndex]
    (the loop returns the split), [false] when the loop runs out. *)
Fixpoint skip_leading_dots (fuel : nat) (p : string) (extsep : ascii)
         (filenameIndex dotIndex : Z) : bool :=
  match fuel with
  | O => false
  | S fuel' =>
      if filenameIndex <? dotIndex then
        if char_differs p filenameIndex extsep then true
        else skip_leading_dots fuel' p extsep (filenameIndex + 1) dotIndex
      else false
  end.

(** [genericpath._splitext(p, sep, altsep, extsep)] *)
Definition _splitext (p : string) (sep : ascii) (altsep : option ascii)
           (extsep : ascii) : string * string :=
  let sepIndex := rfind sep p in
  let sepIndex :=
    match altsep with
    | Some a => Z.max sepIndex (rfind a p)
    | None => sepIndex
    end in
  let dotIndex := rfind extsep p in
  if (dotIndex >? sepIndex)
     && skip_leading_dots (Z.to_nat (dotIndex - (sepIndex + 1))) p extsep
          (sepIndex + 1) dotIndex
  then (slice_to dotIndex p, slice_from dotIndex p)
  else (p, EmptyString).

(** The two flavours of [os.path]: [posixpath] and [ntpath]. *)
Inductive flavour := Posix | Nt.

Definition splitext (os : flavour) (p : string) : string * string :=
  match os with
  | Posix => _splitext p "/"%char None "."%char
  | Nt => _splitext p "\"%char (Some "/"%char) "."%char
  end.

End OsPath.

(** ** Python values and exceptions *)

(** What [response.json()] can return. A parsed JSON object is a [PyDict];
    [dict_get] below reads the binding the dict holds for a key. *)
#[warnings="-register-all"]
Inductive pyval :=
| PyNone
| PyBool (b : bool)
| PyInt (z : Z)
| PyFloat (repr : string)
| PyStr (s : string)
| PyList (l : list pyval)
| PyDict (d : list (string * pyval)).

Fixpoint dict_get (d : list (string * pyval)) (k : string) : option pyval :=
  match d with
  | [] => None
  | (k', v) :: d' => if String.eqb k' k then Some v else dict_get d' k
  end.

Definition type_name (v : pyval) : string :=
  match v with
  | PyNone => "NoneType"
  | PyBool _ => "bool"
  | PyInt _ => "int"
  | PyFloat _ => "float"
  | PyStr _ => "str"
  | PyList _ => "list"
  | PyDict _ => "dict"
  end.

(** Exceptions, all subclasses of [Exception].  [ExternalError] stands for
    whatever a library call raises; [msg] is its [str()]. *)
Inductive exn :=
| ValueError (msg : string)
| Exception (msg : string)
| KeyError (key : string)
| TypeError (msg : string)
| AttributeError (msg : string)
| ExternalError (cls msg : string).

(** [str(e)]; a [KeyError] prints the [repr] of its key. *)
Definition str_exn (e : exn) : string :=
  match e with
  | ValueError m | Exception m | TypeError m | AttributeError m => m
  | KeyError k => "'" ++ k ++ "'"
  | ExternalError _ m => m
  end.

(** ** The outside world *)

Record Response := {
  status_code : Z;
  text : string;
  json : exn + pyval        (* [response.json()]: raises on a body that is not JSON *)
}.

Record Repo := { working_dir : string }.

Inductive call :=
| CMkdtemp
| CZipExtractall (archive extract_to : string)
| CTarExtractall (archive extract_to : string)
| CRepoInit (path : string)
| CGitAdd (r : Repo)
| CGitCommit (r : Repo) (m : string)
| CRequestsPost (url : string) (headers : list (string * string)) (data : string)
| CCreateRemote (r : Repo) (name : string) (url : pyval)
| CGitPush (r : Repo) (remote branch : string)
| CPathExists (path : string)
| CRmtree (path : string).

Inductive retval :=
| RNone
| RStr (s : string)
| RBool (b : bool)
| RRepo (r : Repo)
| RResponse (r : Response).

Inductive event :=
| EStatus (message : string)                 (* update_status.emit *)
| EProgress (percent : Z)                    (* update_progress.emit *)
| EComplete (success : bool) (message : string)  (* operation_complete.emit *)
| ECall (c : call) (result : exn + retval).  (* a library call and what it gave *)

Record Env (W : Type) := {
  os_flavour : OsPath.flavour;
  mkdtemp : W -> W * (exn + string);
  zip_extractall : string -> string -> W -> W * (exn + unit);
  tar_extractall : string -> string -> W -> W * (exn + unit);
  repo_init : string -> W -> W * (exn + Repo);
  git_add : Repo -> W -> W * (exn + unit);
  git_commit : Repo -> string -> W -> W * (exn + unit);
  json_dumps : pyval -> string;
  requests_post : string -> list (string * string) -> string -> W -> W * (exn + Response);
  create_remote : Repo -> string -> pyval -> W -> W * (exn + unit);
  git_push : Repo -> string -> string -> W -> W * (exn + unit);
  path_exists : string -> W -> bool;
  rmtree : string -> W -> W * (exn + unit);
  str_other : pyval -> string   (* [str(v)] for a [v] that is not a [str] *)
}.

Arguments os_flavour {W}.
Arguments mkdtemp {W}.
Arguments zip_extractall {W}.
Arguments tar_extractall {W}.
Arguments repo_init {W}.
Arguments git_add {W}.
Arguments git_commit {W}.
Arguments json_dumps {W}.
Arguments requests_post {W}.
Arguments create_remote {W}.
Arguments git_push {W}.
Arguments path_exists {W}.
Arguments rmtree {W}.
Arguments str_other {W}.

(** ** The worker's monad: world, trace and [self.temp_dir], with exceptions *)

Record State (W : Type) := {
  world : W;
  trace : list event;
  temp_dir : option string      (* [None] is Python's [None] *)
}.

Arguments world {W}.
Arguments trace {W}.
Arguments temp_dir {W}.

Definition M (W A : Type) : Type := State W -> State W * (exn + A).

Definition ret {W A} (a : A) : M W A := fun s => (s, inr a).

Definition bind {W A B} (m : M W A) (k : A -> M W B) : M W B :=
  fun s =>
    match m s with
    | (s', inl e) => (s', inl e)
    | (s', inr a) => k a s'
    end.

Definition raise {W A} (e : exn) : M W A := fun s => (s, inl e).

(** [try: body  except Exception as e: handler(e)] *)
Definition try_except {W A} (body : M W A) (handler : exn -> M W A) : M W A :=
  fun s =>
    match body s with
    | (s', inl e) => handler e s'
    | (s', inr a) => (s', inr a)
    end.

Declare Scope py_scope.
Delimit Scope py_scope with py.
Notation "x <- m ;; k" := (bind m (fun x => k))
  (at level 61, m at next level, right associativity) : py_scope.
Notation "m ;; k" := (bind m (fun _ => k))
  (at level 61, right associativity) : py_scope.
Local Open Scope py_scope.

Definition emit {W} (e : event) : M W unit :=
  fun s => ({| world := world s; trace := trace s ++ [e]; temp_dir := temp_dir s |}, inr tt).

Definition set_temp_dir {W} (d : option string) : M W unit :=
  fun s => ({| world := world s; trace := trace s; temp_dir := d |}, inr tt).

Definition get_temp_dir {W} : M W (option string) :=
  fun s => (s, inr (temp_dir s)).

(** A library call: runs [op] on the world and logs the call with its result. *)
Definition extern {W A} (c : call) (inj : A -> retval) (op : W -> W * (exn + A)) : M W A :=
  fun s =>
    match op (world s) with
    | (w', r) =>
        ({| world := w';
            trace := trace s ++ [ECall c (match r with inl e => inl e | inr a => inr (inj a) end)];
            temp_dir := temp_dir s |}, r)
    end.

Definition init_state {W} (w : W) : State W :=
  {| world := w; trace := []; temp_dir := None |}.

(** ** [WorkerThread] *)

Record Job := {
  archive_path : string;
  repo_name : string;
  github_username : string;
  github_token : string;
  is_private : bool
}.

Section Worker.
Context {W : Type} (env : Env W).

(** [os.path.splitext(archive_path)[1].lower()] *)
Definition file_ext (archive_path : string) : string :=
  PyStr.lower (snd (OsPath.splitext (os_flavour env) archive_path)).

Definition extract_archive (archive_path extract_to : string) : M W unit :=
  let file_ext := file_ext archive_path in
  if String.eqb file_ext ".zip" then
    extern (CZipExtractall archive_path extract_to) (fun _ => RNone)
           (zip_extractall env archive_path extract_to)
  else if existsb (String.eqb file_ext) [".tar"; ".gz"; ".tgz"] then
    extern (CTarExtractall archive_path extract_to) (fun _ => RNone)
           (tar_extractall env archive_path extract_to)
  else
    raise (ValueError ("Unsupported archive format: " ++ file_ext)).

(** [f"{v}"]: [str(v)] *)
Definition format_value (v : pyval) : string :=
  match v with
  | PyStr s => s
  | _ => str_other env v
  end.

(** [v.get] on something that is not a dict *)
Definition no_attribute (v : pyval) (attr : string) : exn :=
  AttributeError ("'" ++ type_name v ++ "' object has no attribute '" ++ attr ++ "'").

(** [v["html_url"]] on something that is not a dict *)
Definition bad_subscript (v : pyval) : exn :=
  match v with
  | PyList _ => TypeError "list indices must be integers or slices, not str"
  | PyStr _ => TypeError "string indices must be integers, not 'str'"
  | _ => TypeError ("'" ++ type_name v ++ "' object is not subscriptable")
  end.

Definition create_github_repo (job : Job) : M W pyval :=
  let url := "https://api.github.com/user/repos" in
  let headers :=
    [("Authorization", "token " ++ github_token job);
     ("Accept", "application/vnd.github.v3+json")] in
  let data :=
    PyDict [("name", PyStr (repo_name job)); ("private", PyBool (is_private job))] in
  response <- extern (CRequestsPost url headers (json_dumps env data)) RResponse
                     (requests_post env url headers (json_dumps env data)) ;;
  if negb (existsb (Z.eqb (status_code response)) [200; 201]) then
    match json response with
    | inl e => raise e
    | inr (PyDict d) =>
        let message :=
          match dict_get d "message" with
          | Some v => v
          | None => PyStr (text response)
          end in
        raise (Exception ("Failed to create GitHub repository: " ++ format_value message))
    | inr v => raise (no_attribute v "get")
    end
  else
    match json response with
    | inl e => raise e
    | inr (PyDict d) =>
        match dict_get d "html_url" with
        | Some v => ret v
        | None => raise (KeyError "html_url")
        end
    | inr v => raise (bad_subscript v)
    end.

(** A Python [str] is true when it is not empty. *)
Definition truthy (s : string) : bool :=
  match s with EmptyString => false | _ => true end.

Definition cleanup : M W unit :=
  d <- get_temp_dir ;;
  match d with
  | None => ret tt
  | Some d =>
      if truthy d then
        ex <- extern (CPathExists d) RBool (fun w => (w, inr (path_exists env d w))) ;;
        if (ex : bool) then
          try_except
            (extern (CRmtree d) (fun _ => RNone) (rmtree env d))
            (fun e =>
               emit (EStatus ("Warning: Failed to clean up temporary directory: " ++ str_exn e)))
        else ret tt
      else ret tt
  end.

(** The [try] block of [run], up to the push: it yields [repo_url].
    [self.temp_dir] holds [d] from the assignment on. *)
Definition run_upload (job : Job) : M W pyval :=
  emit (EStatus "Creating temporary directory...") ;;
  d <- extern CMkdtemp RStr (mkdtemp env) ;;
  set_temp_dir (Some d) ;;
  emit (EProgress 10) ;;
  emit (EStatus ("Extracting " ++ archive_path job ++ " to temporary directory...")) ;;
  extract_archive (archive_path job) d ;;
  emit (EProgress 30) ;;
  emit (EStatus "Initializing Git repository...") ;;
  repo <- extern (CRepoInit d) RRepo (repo_init env d) ;;
  emit (EProgress 40) ;;
  emit (EStatus "Adding files to Git...") ;;
  extern (CGitAdd repo) (fun _ => RNone) (git_add env repo) ;;
  emit (EProgress 50) ;;
  emit (EStatus "Committing files...") ;;
  extern (CGitCommit repo "Initial commit") (fun _ => RNone)
         (git_commit env repo "Initial commit") ;;
  emit (EProgress 60) ;;
  emit (EStatus ("Creating GitHub repository: " ++ repo_name job ++ "...")) ;;
  repo_url <- create_github_repo job ;;
  emit (EProgress 70) ;;
  emit (EStatus "Pushing to GitHub...") ;;
  extern (CCreateRemote repo "origin" repo_url) (fun _ => RNone)
         (create_remote env repo "origin" repo_url) ;;
  extern (CGitPush repo "origin" "master") (fun _ => RNone)
         (git_push env repo "origin" "master") ;;
  emit (EProgress 90) ;;
  ret repo_url.

(** The rest of the [try] block: clean up and report success. *)
Definition run_finish (repo_url : pyval) : M W unit :=
  emit (EStatus "Cleaning up temporary files...") ;;
  cleanup ;;
  emit (EProgress 100) ;;
  emit (EComplete true ("Successfully uploaded to " ++ format_value repo_url)).

Definition run_body (job : Job) : M W unit :=
  repo_url <- run_upload job ;;
  run_finish repo_url.

(** The [except Exception as e] block of [run]. *)
Definition run_handler (e : exn) : M W unit :=
  emit (EStatus ("Error: " ++ str_exn e)) ;;
  emit (EComplete false (str_exn e)) ;;
  cleanup.

Definition run (job : Job) : M W unit :=
  try_except (run_body job) run_handler.

(** The trace of one job, started in world [w]. *)
Definition run_trace (job : Job) (w : W) : list event :=
  trace (fst (run job (init_state w))).

End Worker.

(** ** Environments that differ in one operation *)

(** [env] with another [rmtree], respectively another [requests_post]. *)
Definition with_rmtree {W} (env : Env W) (f : string -> W -> W * (exn + unit)) : Env W :=
  {| os_flavour := os_flavour env;
     mkdtemp := mkdtemp env;
     zip_extractall := zip_extractall env;
     tar_extractall := tar_extractall env;
     repo_init := repo_init env;
     git_add := git_add env;
     git_commit := git_commit env;
     json_dumps := json_dumps env;
     requests_post := requests_post env;
     create_remote := create_remote env;
     git_push := git_push env;
     path_exists := path_exists env;
     rmtree := f;
     str_other := str_other env |}.

Definition with_requests_post {W} (env : Env W)
           (f : string -> list (string * string) -> string -> W -> W * (exn + Response)) : Env W :=
  {| os_flavour := os_flavour env;
     mkdtemp := mkdtemp env;
     zip_extractall := zip_extractall env;
     tar_extractall := tar_extractall env;
     repo_init := repo_init env;
     git_add := git_add env;
     git_commit := git_commit env;
     json_dumps := json_dumps env;
     requests_post := f;
     create_remote := create_remote env;
     git_push := git_push env;
     path_exists := path_exists env;
     rmtree := rmtree env;
     str_other := str_other env |}.

(** ** [AutoGitUploader.upload_to_github]: the submission form *)

Record Form := {
  archive_path_edit : string;
  repo_name_edit : string;
  github_username_edit : string;
  github_token_edit : string;
  private_repo_checkbox : bool;
  save_username_checkbox : bool
}.

(** What the slot does to the window, the settings store and the worker. *)
Inductive ui_action :=
| MessageBoxWarning (title message : string)
| SettingsSetValue (key value : string)
| SettingsRemove (key : string)
| StatusTextClear
| ProgressBarSetValue (n : Z)
| SetUiEnabled (enabled : bool)
| WorkerStart (job : Job).

Definition upload_to_github {W} (env : Env W) (form : Form) (w : W) : list ui_action :=
  let archive_path := archive_path_edit form in
  let repo_name := repo_name_edit form in
  let github_username := github_username_edit form in
  let github_token := github_token_edit form in
  let is_private := private_repo_checkbox form in
  if negb (truthy archive_path) then
    [MessageBoxWarning "Error" "Please select an archive file."]
  else if negb (path_exists env archive_path w) then
    [MessageBoxWarning "Error" "Selected archive file does not exist."]
  else if negb (truthy repo_name) then
    [MessageBoxWarning "Error" "Please enter a repository name."]
  else if negb (truthy github_username) then
    [MessageBoxWarning "Error" "Please enter your GitHub username."]
  else if negb (truthy github_token) then
    [MessageBoxWarning "Error" "Please enter your GitHub token."]
  else
    [ if save_username_checkbox form
      then SettingsSetValue "github_username" github_username
      else SettingsRemove "github_username";
      StatusTextClear;
      ProgressBarSetValue 0;
      SetUiEnabled false;
      WorkerStart {| archive_path := archive_path;
                     repo_name := repo_name;
                     github_username := github_username;
                     github_token := github_token;
                     is_private := is_private |} ].

Definition starts_worker (a : ui_action) : bool :=
  match a with WorkerStart _ => true | _ => false end.

(** ** Reading a trace *)

Definition outcome_of (e : event) : option (bool * string) :=
  match e with EComplete ok m => Some (ok, m) | _ => None end.

(** The terminal outcome: the first [operation_complete] signal. *)
Fixpoint outcome (tr : list event) : option (bool * string) :=
  match tr with
  | [] => None
  | e :: tr' => match outcome_of e with Some o => Some o | None => outcome tr' end
  end.

Fixpoint progress_log (tr : list event) : list Z :=
  match tr with
  | [] => []
  | EProgress n :: tr' => n :: progress_log tr'
  | _ :: tr' => progress_log tr'
  end.

Fixpoint status_log (tr : list event) : list string :=
  match tr with
  | [] => []
  | EStatus m :: tr' => m :: status_log tr'
  | _ :: tr' => status_log tr'
  end.

Fixpoint calls (tr : list event) : list call :=
  match tr with
  | [] => []
  | ECall c _ :: tr' => c :: calls tr'
  | _ :: tr' => calls tr'
  end.

(** The library operation behind a call, without its arguments. *)
Inductive operation :=
| OpMkdtemp | OpExtractall | OpRepoInit | OpGitAdd | OpGitCommit | OpRequestsPost
| OpCreateRemote | OpGitPush | OpPathExists | OpRmtree.

Definition operation_of (c : call) : operation :=
  match c with
  | CMkdtemp => OpMkdtemp
  | CZipExtractall _ _ | CTarExtractall _ _ => OpExtractall
  | CRepoInit _ => OpRepoInit
  | CGitAdd _ => OpGitAdd
  | CGitCommit _ _ => OpGitCommit
  | CRequestsPost _ _ _ => OpRequestsPost
  | CCreateRemote _ _ _ => OpCreateRemote
  | CGitPush _ _ _ => OpGitPush
  | CPathExists _ => OpPathExists
  | CRmtree _ => OpRmtree
  end.

Definition is_complete (e : event) : bool :=
  match e with EComplete _ _ => true | _ => false end.

Definition is_rmtree (e : event) : bool :=
  match e with ECall (CRmtree _) _ => true | _ => false end.

(** No [rmtree] call comes after an [operation_complete] signal. *)
Fixpoint cleanup_before_report (tr : list event) : bool :=
  match tr with
  | [] => true
  | e :: tr' =>
      if is_complete e then negb (existsb is_rmtree tr')
      else cleanup_before_report tr'
  end.

(** *** The spec's state machine, read off the trace

    The states are those of the spec; an event is placed in the state the
    worker is in when it happens.  Status lines are recognised by the fixed
    text they start with. *)

Inductive phase :=
| Idle | Extracting | Initializing | Staging | Committing | CreatingRemote
| Pushing | CleaningUp | Succeeded | Failed.

Definition phase_eqb (a b : phase) : bool :=
  match a, b with
  | Idle, Idle | Extracting, Extracting | Initializing, Initializing
  | Staging, Staging | Committing, Committing | CreatingRemote, CreatingRemote
  | Pushing, Pushing | CleaningUp, CleaningUp | Succeeded, Succeeded
  | Failed, Failed => true
  | _, _ => false
  end.

(** [m] starts with [pre]. *)
Fixpoint starts_with (pre m : string) {struct pre} : bool :=
  match pre with
  | EmptyString => true
  | String a pre' =>
      match m with
      | EmptyString => false
      | String b m' => Ascii.eqb a b && starts_with pre' m'
      end
  end.

Definition phase_of_status (m : string) : option phase :=
  if starts_with "Creating temporary directory" m then Some Idle
  else if starts_with "Extracting " m then Some Extracting
  else if starts_with "Initializing Git repository" m then Some Initializing
  else if starts_with "Adding files to Git" m then Some Staging
  else if starts_with "Committing files" m then Some Committing
  else if starts_with "Creating GitHub repository: " m then Some CreatingRemote
  else if starts_with "Pushing to GitHub" m then Some Pushing
  else if starts_with "Cleaning up temporary files" m then Some CleaningUp
  else if starts_with "Warning: Failed to clean up" m then Some CleaningUp
  else if starts_with "Error: " m then Some Failed
  else None.

Definition phase_of_call (c : call) : phase :=
  match c with
  | CMkdtemp => Idle
  | CZipExtractall _ _ | CTarExtractall _ _ => Extracting
  | CRepoInit _ => Initializing
  | CGitAdd _ => Staging
  | CGitCommit _ _ => Committing
  | CRequestsPost _ _ _ => CreatingRemote
  | CCreateRemote _ _ _ | CGitPush _ _ _ => Pushing
  | CPathExists _ | CRmtree _ => CleaningUp
  end.

Definition phase_of_event (e : event) : option phase :=
  match e with
  | EStatus m => phase_of_status m
  | EProgress _ => None
  | EComplete true _ => Some Succeeded
  | EComplete false _ => Some Failed
  | ECall c _ => Some (phase_of_call c)
  end.

(** The states visited, in order, each maximal run of one state once. *)
Fixpoint phase_path_from (cur : option phase) (tr : list event) : list phase :=
  match tr with
  | [] => []
  | e :: tr' =>
      match phase_of_event e with
      | None => phase_path_from cur tr'
      | Some p =>
          match cur with
          | Some q => if phase_eqb p q then phase_path_from cur tr'
                      else p :: phase_path_from (Some p) tr'
          | None => p :: phase_path_from (Some p) tr'
          end
      end
  end.

Definition phase_path (tr : list event) : list phase := phase_path_from None tr.

Definition work_path : list phase :=
  [Idle; Extracting; Initializing; Staging; Committing; CreatingRemote; Pushing].

Definition success_path : list phase := work_path ++ [CleaningUp; Succeeded].

(** ** The two decompression routines, as [extract_archive] reaches them *)

Inductive routine := ZipRoutine | TarRoutine.

(** [with zipfile.ZipFile(p, 'r') as z: z.extractall(d)], respectively
    [with tarfile.open(p, 'r:*') as t: t.extractall(d)]. *)
Definition invoke {W} (env : Env W) (r : routine) (archive_path extract_to : string) : M W unit :=
  match r with
  | ZipRoutine =>
      extern (CZipExtractall archive_path extract_to) (fun _ => RNone)
             (zip_extractall env archive_path extract_to)
  | TarRoutine =>
      extern (CTarExtractall archive_path extract_to) (fun _ => RNone)
             (tar_extractall env archive_path extract_to)
  end.

Definition routed_to {W} (env : Env W) (archive_path extract_to : string) (r : routine) : Prop :=
  forall s, extract_archive env archive_path extract_to s = invoke env r archive_path extract_to s.

Definition supported_suffixes : list string := [".zip"; ".tar"; ".gz"; ".tgz"].

Definition tar_suffixes : list string := [".tar"; ".gz"; ".tgz"].

(** ** Shapes of traces *)

(** What [cleanup] can add to the trace. *)
Inductive cleanup_trace : list event -> Prop :=
| cleanup_nothing :
    cleanup_trace []
| cleanup_missing d :
    cleanup_trace [ECall (CPathExists d) (inr (RBool false))]
| cleanup_removed d :
    cleanup_trace [ECall (CPathExists d) (inr (RBool true));
                   ECall (CRmtree d) (inr RNone)]
| cleanup_warned d e :
    cleanup_trace [ECall (CPathExists d) (inr (RBool true));
                   ECall (CRmtree d) (inl e);
                   EStatus ("Warning: Failed to clean up temporary directory: " ++ str_exn e)].

Definition extract_call (r : routine) (archive_path extract_to : string) : call :=
  match r with
  | ZipRoutine => CZipExtractall archive_path extract_to
  | TarRoutine => CTarExtractall archive_path extract_to
  end.

Definition request_headers (job : Job) : list (string * string) :=
  [("Authorization", "token " ++ github_token job);
   ("Accept", "application/vnd.github.v3+json")].

Definition request_data (job : Job) : pyval :=
  PyDict [("name", PyStr (repo_name job)); ("private", PyBool (is_private job))].

(** The trace of [run_upload] when every step succeeds. *)
Definition upload_trace {W} (env : Env W) (job : Job) (d : string) (r : routine)
           (repo : Repo) (response : Response) (repo_url : pyval) : list event :=
  [ EStatus "Creating temporary directory...";
    ECall CMkdtemp (inr (RStr d));
    EProgress 10;
    EStatus ("Extracting " ++ archive_path job ++ " to temporary directory...");
    ECall (extract_call r (archive_path job) d) (inr RNone);
    EProgress 30;
    EStatus "Initializing Git repository...";
    ECall (CRepoInit d) (inr (RRepo repo));
    EProgress 40;
    EStatus "Adding files to Git...";
    ECall (CGitAdd repo) (inr RNone);
    EProgress 50;
    EStatus "Committing files...";
    ECall (CGitCommit repo "Initial commit") (inr RNone);
    EProgress 60;
    EStatus ("Creating GitHub repository: " ++ repo_name job ++ "...");
    ECall (CRequestsPost "https://api.github.com/user/repos" (request_headers job)
                         (json_dumps env (request_data job)))
          (inr (RResponse response));
    EProgress 70;
    EStatus "Pushing to GitHub...";
    ECall (CCreateRemote repo "origin" repo_url) (inr RNone);
    ECall (CGitPush repo "origin" "master") (inr RNone);
    EProgress 90 ].

Definition operation_eqb (a b : operation) : bool :=
  match a, b with
  | OpMkdtemp, OpMkdtemp | OpExtractall, OpExtractall | OpRepoInit, OpRepoInit
  | OpGitAdd, OpGitAdd | OpGitCommit, OpGitCommit | OpRequestsPost, OpRequestsPost
  | OpCreateRemote, OpCreateRemote | OpGitPush, OpGitPush
  | OpPathExists, OpPathExists | OpRmtree, OpRmtree => true
  | _, _ => false
  end.

(** No element occurs twice, for the equality test [eqb]. *)
Fixpoint nodupb {A} (eqb : A -> A -> bool) (l : list A) : bool :=
  match l with
  | [] => true
  | x :: l' => negb (existsb (eqb x) l') && nodupb eqb l'
  end.

Fixpoint phases_eqb (a b : list phase) : bool :=
  match a, b with
  | [], [] => true
  | x :: a', y :: b' => phase_eqb x y && phases_eqb a' b'
  | _, _ => false
  end.

(** The operations called along a trace. *)
Definition operations (tr : list event) : list operation := map operation_of (calls tr).

(** The trace of a [run_upload] that raised: nothing reported yet, nothing
    removed yet, the states visited are an initial stretch of [work_path],
    no operation called twice and no clean-up operation called. *)
Definition interrupted_upload (tr : list event) : bool :=
  negb (existsb is_complete tr)
  && negb (existsb is_rmtree tr)
  && existsb (fun k => phases_eqb (phase_path tr) (firstn k work_path))
             [1; 2; 3; 4; 5; 6; 7]%nat
  && nodupb operation_eqb (operations tr ++ [OpPathExists; OpRmtree]).

(** ** The spec's sentences about [run], as it words them *)

(** The job ran into an error [e]: the [try] block raised it. *)
Definition run_raises {W} (env : Env W) (job : Job) (w : W) (e : exn) : Prop :=
  exists s1, run_body env job (init_state w) = (s1, inl e).

(** "The working directory is still cleaned up before reporting the failure
    message; the failure message is the exception's textual description." *)
Definition cleaned_up_before_failure_is_reported : Prop :=
  forall (W : Type) (env : Env W) (job : Job) (w : W) (e : exn),
    run_raises env job w e ->
    cleanup_before_report (run_trace env job w) = true /\
    outcome (run_trace env job w) = Some (false, str_exn e).

(** "Any step's error transitions directly to CleaningUp then Failed." *)
Definition spec_failure_path (k : nat) : list phase :=
  (firstn k work_path ++ [CleaningUp; Failed])%list.

Definition error_goes_to_cleaning_up_then_failed : Prop :=
  forall (W : Type) (env : Env W) (job : Job) (w : W),
    phase_path (run_trace env job w) = success_path \/
    exists k, (1 <= k <= 7)%nat /\ phase_path (run_trace env job w) = spec_failure_path k.

(** What the code does on an error: Failed is reported from the state the
    error arose in, and CleaningUp follows when there is something to clean. *)
Definition failure_path (k : nat) (cleaning : bool) : list phase :=
  (firstn k work_path ++ Failed :: (if cleaning then [CleaningUp] else []))%list.

Definition warning_line (e : exn) : string :=
  "Warning: Failed to clean up temporary directory: " ++ str_exn e.

(** The failure [e], raised with the worker in state [s1], is reported
    first and the clean-up [cl] follows. *)
Definition reported_then_cleaned_up {W} (env : Env W) (job : Job) (w : W)
           (s1 : State W) (e : exn) : Prop :=
  exists cl : list event,
    run_trace env job w =
    (trace s1 ++ [EStatus ("Error: " ++ str_exn e); EComplete false (str_exn e)] ++ cl)%list /\
    existsb is_complete (trace s1) = false /\
    existsb is_rmtree (trace s1) = false /\
    cleanup_trace cl /\
    outcome (run_trace env job w) = Some (false, str_exn e) /\
    snd (run env job (init_state w)) = inr tt /\
    (forall d, temp_dir s1 = Some d -> truthy d = true ->
               path_exists env d (world s1) = true ->
               exists r, In (ECall (CRmtree d) r) cl).

(** The run in [env], where [rmtree] raised [e], against the same run in
    [env_ok], where it does not: same outcome, same progress, one more
    status line. *)
Definition only_a_warning_more {W} (env env_ok : Env W) (job : Job) (w : W) (e : exn) : Prop :=
  outcome (run_trace env job w) = outcome (run_trace env_ok job w) /\
  status_log (run_trace env job w) =
  (status_log (run_trace env_ok job w) ++ [warning_line e])%list /\
  progress_log (run_trace env job w) = progress_log (run_trace env_ok job w).

(** ** What can be wrong with a submitted form *)

Inductive defect :=
| NoArchive          (* no archive path *)
| ArchiveMissing     (* the archive file does not exist *)
| NoRepoName         (* no repository name *)
| NoUsername         (* no account identifier *)
| NoToken.           (* no access credential *)

Definition has_defect {W} (env : Env W) (form : Form) (w : W) (d : defect) : Prop :=
  match d with
  | NoArchive => archive_path_edit form = ""
  | ArchiveMissing => path_exists env (archive_path_edit form) w = false
  | NoRepoName => repo_name_edit form = ""
  | NoUsername => github_username_edit form = ""
  | NoToken => github_token_edit form = ""
  end.

(** The order in which [upload_to_github] looks for them. *)
Definition defect_rank (d : defect) : nat :=
  match d with
  | NoArchive => 0
  | ArchiveMissing => 1
  | NoRepoName => 2
  | NoUsername => 3
  | NoToken => 4
  end.

Definition rejection_message (d : defect) : string :=
  match d with
  | NoArchive => "Please select an archive file."
  | ArchiveMissing => "Selected archive file does not exist."
  | NoRepoName => "Please enter a repository name."
  | NoUsername => "Please enter your GitHub username."
  | NoToken => "Please enter your GitHub token."
  end.

(** The state a trace ends in, given the one it started in. *)
Definition last_phase (cur : option phase) (path : list phase) : option phase :=
  match rev path with
  | p :: _ => Some p
  | [] => cur
  end.

(** [s] after the worker has logged [evs] and the world has become [w']. *)
Definition after_events {W} (s : State W) (evs : list event) (w' : W) : State W :=
  {| world := w'; trace := (trace s ++ evs)%list; temp_dir := temp_dir s |}.

(** What [requests.post] gives [create_github_repo] in state [s]. *)
Definition posted {W} (env : Env W) (job : Job) (s : State W) : W * (exn + Response) :=
  requests_post env "https://api.github.com/user/repos" (request_headers job)
                (json_dumps env (request_data job)) (world s).

(** [response.status_code in [200, 201]] *)
Definition success_status (response : Response) : bool :=
  existsb (Z.eqb (status_code response)) [200; 201].

(** ** A small concrete world for examples

    The world is the list of directories that exist.  [Mock.env] is an
    environment in which every library call succeeds and the platform
    answers 201 with an [html_url]. *)

Module Mock.

Definition world := list string.

Definition ok_response : Response :=
  {| status_code := 201;
     text := "{...}";
     json := inr (PyDict [("id", PyInt 1);
                          ("html_url", PyStr "https://example.test/user/myproj")]) |}.

Definition remove_dir (d : string) (w : world) : world :=
  filter (fun x => negb (String.eqb x d)) w.

Definition env : Env world :=
  {| os_flavour := OsPath.Posix;
     mkdtemp := fun w => ("/tmp/tmpa1" :: w, inr "/tmp/tmpa1");
     zip_extractall := fun _ _ w => (w, inr tt);
     tar_extractall := fun _ _ w => (w, inr tt);
     repo_init := fun d w => (w, inr {| working_dir := d |});
     git_add := fun _ w => (w, inr tt);
     git_commit := fun _ _ w => (w, inr tt);
     json_dumps := fun _ => "{...}";
     requests_post := fun _ _ _ w => (w, inr ok_response);
     create_remote := fun _ _ _ w => (w, inr tt);
     git_push := fun _ _ _ w => (w, inr tt);
     path_exists := fun d w => existsb (String.eqb d) w;
     rmtree := fun d w => (remove_dir d w, inr tt);
     str_other := fun _ => "?" |}.

Definition job : Job :=
  {| archive_path := "project.zip";
     repo_name := "myproj";
     github_username := "user";
     github_token := "secret";
     is_private := false |}.

(** The same job with an archive of a kind [extract_archive] does not know. *)
Definition rar_job : Job :=
  {| archive_path := "project.rar";
     repo_name := "myproj";
     github_username := "user";
     github_token := "secret";
     is_private := false |}.

(** [rmtree] refused by the file system. *)
Definition permission_denied : exn :=
  ExternalError "PermissionError" "[Errno 13] Permission denied: '/tmp/tmpa1'".

(** The platform's answer to a name that is taken. *)
Definition unprocessable : Response :=
  {| status_code := 422;
     text := "{...}";
     json := inr (PyDict [("message", PyStr "Repository creation failed.")]) |}.

(** A gateway's answer: an HTML page, which [response.json()] cannot parse. *)
Definition json_decode_error : exn :=
  ExternalError "JSONDecodeError" "Expecting value: line 1 column 1 (char 0)".

Definition bad_gateway : Response :=
  {| status_code := 502;
     text := "<html><body><h1>502 Bad Gateway</h1></body></html>";
     json := inl json_decode_error |}.

(** [env] behind a gateway that answers [bad_gateway]. *)
Definition gateway_env : Env world :=
  with_requests_post env (fun _ _ _ w => (w, inr bad_gateway)).

(** [env] with the platform answering [unprocessable]. *)
Definition taken_env : Env world :=
  with_requests_post env (fun _ _ _ w => (w, inr unprocessable)).

(** A form with everything filled in but the token. *)
Definition form_without_token : Form :=
  {| archive_path_edit := "/home/user/project.zip";
     repo_name_edit := "project";
     github_username_edit := "user";
     github_token_edit := "";
     private_repo_checkbox := false;
     save_username_checkbox := true |}.

End Mock.

(** ** The main window

    [AutoGitUploader] as the state its slots read and write: the form, the
    widgets the worker's signals drive, the settings store and the message
    boxes shown so far.  Layout and styling are left out, but for the
    highlight of the drop area. *)

Module PosixPath.

(** [posixpath.basename]: [i = p.rfind('/') + 1; return p[i:]] *)
Definition basename (p : string) : string :=
  let i := PyStr.rfind "/"%char p + 1 in
  PyStr.slice_from i p.

End PosixPath.

(** [os.path.basename].  [ntpath.basename] splits a drive off first, in a
    way that differs between Python versions; it is taken as given. *)
Definition os_basename (os : OsPath.flavour) (nt_basename : string -> string)
           (p : string) : string :=
  match os with
  | OsPath.Posix => PosixPath.basename p
  | OsPath.Nt => nt_basename p
  end.

(** [QSettings], holding the strings this program stores in it. *)
Definition Settings := list (string * string).

(** [settings.value(key, default)] *)
Fixpoint settings_value (st : Settings) (key default : string) : string :=
  match st with
  | [] => default
  | (k, v) :: st' => if String.eqb k key then v else settings_value st' key default
  end.

(** [settings.remove(key)] *)
Definition settings_remove (key : string) (st : Settings) : Settings :=
  filter (fun kv => negb (String.eqb (fst kv) key)) st.

(** [settings.setValue(key, value)] *)
Definition settings_setValue (key value : string) (st : Settings) : Settings :=
  (key, value) :: settings_remove key st.

Inductive message_box :=
| BoxWarning (title message : string)        (* QMessageBox.warning *)
| BoxInformation (title message : string)    (* QMessageBox.information *)
| BoxCritical (title message : string).      (* QMessageBox.critical *)

Record Window := {
  form : Form;
  controls_enabled : bool;      (* the seven widgets [set_ui_enabled] sets, together *)
  progress_bar : Z;
  status_text : list string;    (* the paragraphs of the status box *)
  settings : Settings;
  worker : option Job;          (* [self.worker] *)
  message_boxes : list message_box;   (* shown so far, oldest first *)
  drop_highlighted : bool       (* the drop area wears the highlighted border *)
}.

Definition with_form (f : Form) (win : Window) : Window :=
  {| form := f;
     controls_enabled := controls_enabled win;
     progress_bar := progress_bar win;
     status_text := status_text win;
     settings := settings win;
     worker := worker win;
     message_boxes := message_boxes win;
     drop_highlighted := drop_highlighted win |}.

Definition with_settings (st : Settings) (win : Window) : Window :=
  {| form := form win;
     controls_enabled := controls_enabled win;
     progress_bar := progress_bar win;
     status_text := status_text win;
     settings := st;
     worker := worker win;
     message_boxes := message_boxes win;
     drop_highlighted := drop_highlighted win |}.

Definition with_status_text (l : list string) (win : Window) : Window :=
  {| form := form win;
     controls_enabled := controls_enabled win;
     progress_bar := progress_bar win;
     status_text := l;
     settings := settings win;
     worker := worker win;
     message_boxes := message_boxes win;
     drop_highlighted := drop_highlighted win |}.

Definition with_worker (j : option Job) (win : Window) : Window :=
  {| form := form win;
     controls_enabled := controls_enabled win;
     progress_bar := progress_bar win;
     status_text := status_text win;
     settings := settings win;
     worker := j;
     message_boxes := message_boxes win;
     drop_highlighted := drop_highlighted win |}.

Definition with_drop_highlighted (b : bool) (win : Window) : Window :=
  {| form := form win;
     controls_enabled := controls_enabled win;
     progress_bar := progress_bar win;
     status_text := status_text win;
     settings := settings win;
     worker := worker win;
     message_boxes := message_boxes win;
     drop_highlighted := b |}.

Definition show_message_box (b : message_box) (win : Window) : Window :=
  {| form := form win;
     controls_enabled := controls_enabled win;
     progress_bar := progress_bar win;
     status_text := status_text win;
     settings := settings win;
     worker := worker win;
     message_boxes := message_boxes win ++ [b];
     drop_highlighted := drop_highlighted win |}.

(** [archive_path_edit.setText], [repo_name_edit.setText],
    [github_username_edit.setText] *)
Definition set_archive_path_text (t : string) (f : Form) : Form :=
  {| archive_path_edit := t;
     repo_name_edit := repo_name_edit f;
     github_username_edit := github_username_edit f;
     github_token_edit := github_token_edit f;
     private_repo_checkbox := private_repo_checkbox f;
     save_username_checkbox := save_username_checkbox f |}.

Definition set_repo_name_text (t : string) (f : Form) : Form :=
  {| archive_path_edit := archive_path_edit f;
     repo_name_edit := t;
     github_username_edit := github_username_edit f;
     github_token_edit := github_token_edit f;
     private_repo_checkbox := private_repo_checkbox f;
     save_username_checkbox := save_username_checkbox f |}.

Definition set_github_username_text (t : string) (f : Form) : Form :=
  {| archive_path_edit := archive_path_edit f;
     repo_name_edit := repo_name_edit f;
     github_username_edit := t;
     github_token_edit := github_token_edit f;
     private_repo_checkbox := private_repo_checkbox f;
     save_username_checkbox := save_username_checkbox f |}.

(** [set_ui_enabled] *)
Definition set_ui_enabled (enabled : bool) (win : Window) : Window :=
  {| form := form win;
     controls_enabled := enabled;
     progress_bar := progress_bar win;
     status_text := status_text win;
     settings := settings win;
     worker := worker win;
     message_boxes := message_boxes win;
     drop_highlighted := drop_highlighted win |}.

(** [progress_bar.setValue], the range being 0..100 since [init_ui]: a
    value outside the range leaves the bar as it is. *)
Definition progress_bar_setValue (n : Z) (win : Window) : Window :=
  if (0 <=? n) && (n <=? 100) then
    {| form := form win;
       controls_enabled := controls_enabled win;
       progress_bar := n;
       status_text := status_text win;
       settings := settings win;
       worker := worker win;
       message_boxes := message_boxes win;
       drop_highlighted := drop_highlighted win |}
  else win.

(** [update_status]: [status_text.append(message)] (and scroll down). *)
Definition update_status (message : string) (win : Window) : Window :=
  with_status_text (status_text win ++ [message]) win.

Definition on_operation_complete (success : bool) (message : string) (win : Window) : Window :=
  let win := set_ui_enabled true win in
  if success then show_message_box (BoxInformation "Success" message) win
  else show_message_box (BoxCritical "Error" ("Operation failed: " ++ message)) win.

Section Slots.
Context (os : OsPath.flavour) (nt_basename : string -> string).

(** [set_archive_path]; nothing in its [try] block raises on a [str]. *)
Definition set_archive_path (path : string) (win : Window) : Window :=
  let win := with_form (set_archive_path_text path (form win)) win in
  let file_name := os_basename os nt_basename path in
  let base_name := fst (OsPath.splitext os file_name) in
  if truthy base_name && negb (truthy (repo_name_edit (form win))) then
    with_form (set_repo_name_text base_name (form win)) win
  else win.

(** [browse_archive], given what the file dialog returned ([""] when it
    was cancelled). *)
Definition browse_archive (file_path : string) (win : Window) : Window :=
  if truthy file_path then set_archive_path file_path win else win.

End Slots.

(** [load_settings] *)
Definition load_settings (win : Window) : Window :=
  let github_username := settings_value (settings win) "github_username" "" in
  if truthy github_username then
    with_form (set_github_username_text github_username (form win)) win
  else win.

(** [closeEvent] *)
Definition closeEvent (win : Window) : Window :=
  if save_username_checkbox (form win) then
    with_settings (settings_setValue "github_username" (github_username_edit (form win))
                                     (settings win)) win
  else win.

(** The widgets as [init_ui] leaves them. *)
Definition init_ui (st : Settings) : Window :=
  {| form := {| archive_path_edit := "";
                repo_name_edit := "";
                github_username_edit := "";
                github_token_edit := "";
                private_repo_checkbox := false;
                save_username_checkbox := true |};
     controls_enabled := true;
     progress_bar := 0;
     status_text := [];
     settings := st;
     worker := None;
     message_boxes := [];
     drop_highlighted := false |}.

(** [AutoGitUploader.__init__], over the stored settings [st]. *)
Definition new_window (st : Settings) : Window :=
  load_settings (init_ui st).

(** *** The drop area *)

(** A URL of the dragged data. [toLocalFile] is empty unless the URL names
    a local file. *)
Inductive qurl :=
| LocalFileUrl (path : string)
| OtherUrl (address : string).

Definition toLocalFile (u : qurl) : string :=
  match u with
  | LocalFileUrl path => path
  | OtherUrl _ => ""
  end.

(** [mimeData().hasUrls()] *)
Definition hasUrls (urls : list qurl) : bool :=
  match urls with [] => false | _ => true end.

(** [dragEnterEvent]: the window after it, and whether the drag was accepted. *)
Definition dragEnterEvent (urls : list qurl) (win : Window) : Window * bool :=
  if hasUrls urls then (with_drop_highlighted true win, true)
  else (win, false).

Definition dragLeaveEvent (win : Window) : Window :=
  with_drop_highlighted false win.

(** [dropEvent]; [file_dropped] is connected to [set_archive_path]. *)
Definition dropEvent (os : OsPath.flavour) (nt_basename : string -> string)
           (urls : list qurl) (win : Window) : Window :=
  match urls with
  | url :: _ =>
      let file_path := toLocalFile url in
      with_drop_highlighted false (set_archive_path os nt_basename file_path win)
  | [] => win
  end.

(** *** Submitting, and the worker's signals *)

(** One step of [upload_to_github], done to the window. *)
Definition perform (a : ui_action) (win : Window) : Window :=
  match a with
  | MessageBoxWarning title message => show_message_box (BoxWarning title message) win
  | SettingsSetValue key value => with_settings (settings_setValue key value (settings win)) win
  | SettingsRemove key => with_settings (settings_remove key (settings win)) win
  | StatusTextClear => with_status_text [] win
  | ProgressBarSetValue n => progress_bar_setValue n win
  | SetUiEnabled enabled => set_ui_enabled enabled win
  | WorkerStart job => with_worker (Some job) win
  end.

Definition perform_all (acts : list ui_action) (win : Window) : Window :=
  fold_left (fun win a => perform a win) acts win.

(** A click on "Upload to GitHub", the file system being [w]. *)
Definition click_upload {W} (env : Env W) (w : W) (win : Window) : Window :=
  perform_all (upload_to_github env (form win) w) win.

(** The job a click started, if it started one. *)
Fixpoint started_job (acts : list ui_action) : option Job :=
  match acts with
  | [] => None
  | WorkerStart job :: _ => Some job
  | _ :: acts' => started_job acts'
  end.

(** The slot each signal of the worker is connected to. *)
Definition deliver (e : event) (win : Window) : Window :=
  match e with
  | EStatus message => update_status message win
  | EProgress percent => progress_bar_setValue percent win
  | EComplete success message => on_operation_complete success message win
  | ECall _ _ => win
  end.

Definition deliver_all (tr : list event) (win : Window) : Window :=
  fold_left (fun win e => deliver e win) tr win.

(** A click, and then, if it started a worker, that worker's run from world
    [w_run] with its signals delivered in the order emitted. *)
Definition upload_session {W} (env : Env W) (w_click w_run : W) (win : Window) : Window :=
  let win1 := click_upload env w_click win in
  match started_job (upload_to_github env (form win) w_click) with
  | Some job => deliver_all (run_trace env job w_run) win1
  | None => win1
  end.

(** The job [upload_to_github] builds from a form. *)
Definition job_of_form (f : Form) : Job :=
  {| archive_path := archive_path_edit f;
     repo_name := repo_name_edit f;
     github_username := github_username_edit f;
     github_token := github_token_edit f;
     is_private := private_repo_checkbox f |}.

(** The box [on_operation_complete] shows for an outcome. *)
Definition result_box (o : bool * string) : message_box :=
  if fst o then BoxInformation "Success" (snd o)
  else BoxCritical "Error" ("Operation failed: " ++ snd o).

(** ** More ways to read a trace *)

(** The directory a call works in, for the calls that take one. *)
Definition directory_of_call (c : call) : option string :=
  match c with
  | CZipExtractall _ d | CTarExtractall _ d => Some d
  | CRepoInit d => Some d
  | CPathExists d | CRmtree d => Some d
  | _ => None
  end.

Definition is_post (e : event) : bool :=
  match e with ECall (CRequestsPost _ _ _) _ => true | _ => false end.

(** The events before the first [requests.post], if there is one. *)
Fixpoint before_post (tr : list event) : option (list event) :=
  match tr with
  | [] => None
  | e :: tr' =>
      if is_post e then Some []
      else match before_post tr' with
           | Some pre => Some (e :: pre)
           | None => None
           end
  end.

(** The operations that were called and returned normally. *)
Fixpoint succeeded_operations (tr : list event) : list operation :=
  match tr with
  | [] => []
  | ECall c (inr _) :: tr' => operation_of c :: succeeded_operations tr'
  | _ :: tr' => succeeded_operations tr'
  end.

Fixpoint operations_eqb (a b : list operation) : bool :=
  match a, b with
  | [], [] => true
  | x :: a', y :: b' => operation_eqb x y && operations_eqb a' b'
  | _, _ => false
  end.

Definition local_steps : list operation :=
  [OpMkdtemp; OpExtractall; OpRepoInit; OpGitAdd; OpGitCommit].

(** Before any [requests.post] the five local steps have succeeded. *)
Definition post_follows_local_steps (tr : list event) : bool :=
  match before_post tr with
  | Some pre =>
      operations_eqb (succeeded_operations pre) local_steps
      && operations_eqb (operations pre) local_steps
  | None => true
  end.

Fixpoint progress_eqb (a b : list Z) : bool :=
  match a, b with
  | [], [] => true
  | x :: a', y :: b' => (x =? y) && progress_eqb a' b'
  | _, _ => false
  end.

(** The progress values of a [run_upload] that raised: an initial stretch
    of 10, 30, 40, 50, 60, 70. *)
Definition interrupted_progress (tr : list event) : bool :=
  existsb (fun k => progress_eqb (progress_log tr) (firstn k [10; 30; 40; 50; 60; 70]))
          [0; 1; 2; 3; 4; 5; 6]%nat.

(** [c] occurs in [s]. *)
Fixpoint contains (c : ascii) (s : string) : bool :=
  match s with
  | EmptyString => false
  | String a s' => Ascii.eqb a c || contains c s'
  end.

(** A call that works in a directory works in [d]. *)
Definition event_in_directory (d : option string) (e : event) : Prop :=
  match e with
  | ECall c _ =>
      match directory_of_call c with
      | Some d' => d = Some d'
      | None => True
      end
  | _ => True
  end.

(** Every call that works in a directory works in one [mkdtemp] returned. *)
Definition works_in_own_directory (tr : list event) : Prop :=
  forall c r d,
    In (ECall c r) tr -> directory_of_call c = Some d ->
    In (ECall CMkdtemp (inr (RStr d))) tr.

(** [job] submitted under another account name. *)
Definition with_github_username (u : string) (job : Job) : Job :=
  {| archive_path := archive_path job;
     repo_name := repo_name job;
     github_username := u;
     github_token := github_token job;
     is_private := is_private job |}.

(** More examples: the platform answering 201 without an [html_url]. *)
Module MockMore.

Definition created_without_url : Response :=
  {| status_code := 201;
     text := "{...}";
     json := inr (PyDict [("id", PyInt 1)]) |}.

Definition silent_env : Env Mock.world :=
  with_requests_post Mock.env (fun _ _ _ w => (w, inr created_without_url)).

End MockMore.

(** Where [c] occurs last in [s], counted from the head. *)
Fixpoint last_index (c : ascii) (s : string) : option nat :=
  match s with
  | EmptyString => None
  | String a s' =>
      match last_index c s' with
      | Some k => Some (S k)
      | None => if Ascii.eqb a c then Some O else None
      end
  end.

(** The boxes [on_operation_complete] shows for the signals of a trace. *)
Fixpoint result_boxes (tr : list event) : list message_box :=
  match tr with
  | [] => []
  | EComplete success message :: tr' => result_box (success, message) :: result_boxes tr'
  | _ :: tr' => result_boxes tr'
  end.

(** A window for examples: a complete form, a name stored earlier, a line
    left in the status box by an earlier job. *)
Module MockWindow.

Definition complete_form : Form :=
  {| archive_path_edit := "/home/user/project.zip";
     repo_name_edit := "project";
     github_username_edit := "user";
     github_token_edit := "secret";
     private_repo_checkbox := true;
     save_username_checkbox := true |}.

Definition window : Window :=
  {| form := complete_form;
     controls_enabled := true;
     progress_bar := 100;
     status_text := ["Cleaning up temporary files..."];
     settings := [("github_username", "someone")];
     worker := None;
     message_boxes := [];
     drop_highlighted := false |}.

(** The file system in which the archive of [complete_form] exists. *)
Definition disk : Mock.world := ["/home/user/project.zip"].

(** A window whose form is still empty. *)
Definition fresh : Window := new_window [].

End MockWindow.

(** ** The steps of [run], over the libraries alone

    What the libraries answer when the calls of the [try] block of [run]
    are made in order from world [w]: [tempfile.mkdtemp()],
    [extract_archive(archive_path, temp_dir)], [git.Repo.init(temp_dir)],
    [repo.git.add(A=True)], [repo.git.commit(m="Initial commit")],
    [create_github_repo()], [repo.create_remote("origin", repo_url)] and
    [repo.git.push("origin", "master")], each starting where the one
    before left the world, the sequence stopping at the first that raises.
    "All steps succeed" is [Completed]; "step [k] raises [e]" is
    [Stopped k e _].  Nothing here looks at the signals [run] emits or at
    its handler: the two are compared in [run_follows_library_course]. *)

Inductive step :=
| Allocate        (* 1. allocate the working directory *)
| Extract         (* 2. extract the archive into it *)
| Init            (* 3. initialise the repository *)
| Stage           (* 4. stage every file *)
| Commit          (* 5. commit *)
| CreateRemote    (* 6. create the remote repository *)
| Push.           (* 7. register the remote and push *)

Definition step_rank (k : step) : nat :=
  match k with
  | Allocate => 0
  | Extract => 1
  | Init => 2
  | Stage => 3
  | Commit => 4
  | CreateRemote => 5
  | Push => 6
  end.

(** How the steps went: stopped at step [k] by [e], with the directory
    allocated so far if any; or all done, in directory [dir], the remote
    being at [html_url]. *)
Inductive course :=
| Stopped (k : step) (e : exn) (dir : option string)
| Completed (dir : string) (html_url : pyval).

(** What a computation does to the world and what it gives, started from
    world [w] with nothing logged. *)
Definition on_world {W A} (m : M W A) (w : W) : W * (exn + A) :=
  match m (init_state w) with
  | (s, r) => (world s, r)
  end.

Definition library_course {W} (env : Env W) (job : Job) (w : W) : course :=
  match mkdtemp env w with
  | (_, inl e) => Stopped Allocate e None
  | (w1, inr d) =>
  match on_world (extract_archive env (archive_path job) d) w1 with
  | (_, inl e) => Stopped Extract e (Some d)
  | (w2, inr _) =>
  match repo_init env d w2 with
  | (_, inl e) => Stopped Init e (Some d)
  | (w3, inr repo) =>
  match git_add env repo w3 with
  | (_, inl e) => Stopped Stage e (Some d)
  | (w4, inr _) =>
  match git_commit env repo "Initial commit" w4 with
  | (_, inl e) => Stopped Commit e (Some d)
  | (w5, inr _) =>
  match on_world (create_github_repo env job) w5 with
  | (_, inl e) => Stopped CreateRemote e (Some d)
  | (w6, inr html_url) =>
  match create_remote env repo "origin" html_url w6 with
  | (_, inl e) => Stopped Push e (Some d)
  | (w7, inr _) =>
  match git_push env repo "origin" "master" w7 with
  | (_, inl e) => Stopped Push e (Some d)
  | (_, inr _) => Completed d html_url
  end end end end end end end end.

(** [cleanup] has a directory to look at. *)
Definition has_directory (dir : option string) : bool :=
  match dir with
  | Some d => truthy d
  | None => false
  end.

(** The progress values emitted by the time step [k] raises. *)
Definition progress_before (k : step) : list Z :=
  match k with
  | Allocate => []
  | Extract => [10]
  | Init => [10; 30]
  | Stage => [10; 30; 40]
  | Commit => [10; 30; 40; 50]
  | CreateRemote => [10; 30; 40; 50; 60]
  | Push => [10; 30; 40; 50; 60; 70]
  end.

(** Every character of [s] is a dot. *)
Fixpoint all_dots (s : string) : bool :=
  match s with
  | EmptyString => true
  | String a s' => Ascii.eqb a "."%char && all_dots s'
  end.

(** [s] without the dots it starts with. *)
Fixpoint strip_leading_dots (s : string) : string :=
  match s with
  | EmptyString => EmptyString
  | String a s' => if Ascii.eqb a "."%char then strip_leading_dots s' else s
  end.

(** * Properties *)

(** ** Letter case and [splitext] *)

Module PyStrFacts.
Import PyStr.

Lemma lower_char_idem (c : ascii) : lower_char (lower_char c) = lower_char c.
Proof. destruct c as [[] [] [] [] [] [] [] []]; reflexivity. Qed.

Lemma lower_char_eqb_separator (a c : ascii) :
  is_separator c = true -> Ascii.eqb (lower_char a) c = Ascii.eqb a c.
Proof.
  unfold is_separator. intros H.
  apply orb_prop in H. destruct H as [H | H].
  - apply orb_prop in H.
    destruct H as [H | H]; apply Ascii.eqb_eq in H; subst c;
      destruct a as [[] [] [] [] [] [] [] []]; reflexivity.
  - apply Ascii.eqb_eq in H; subst c.
    destruct a as [[] [] [] [] [] [] [] []]; reflexivity.
Qed.

Lemma lower_idem (s : string) : lower (lower s) = lower s.
Proof.
  induction s as [| c s IH]; simpl; [reflexivity |].
  now rewrite lower_char_idem, IH.
Qed.

Lemma length_lower (s : string) : String.length (lower s) = String.length s.
Proof. induction s as [| c s IH]; simpl; congruence. Qed.

Lemma rfind_from_lower (c : ascii) (s : string) (i last : Z) :
  is_separator c = true ->
  rfind_from c (lower s) i last = rfind_from c s i last.
Proof.
  intros Hc. revert i last.
  induction s as [| a s IH]; intros i last; simpl; [reflexivity |].
  now rewrite lower_char_eqb_separator, IH.
Qed.

Lemma rfind_lower (c : ascii) (s : string) :
  is_separator c = true -> rfind c (lower s) = rfind c s.
Proof. intros Hc. unfold rfind. now apply rfind_from_lower. Qed.

Lemma substring_lower (n m : nat) (s : string) :
  substring n m (lower s) = lower (substring n m s).
Proof.
  revert n m. induction s as [| a s IH]; intros n m.
  - destruct n, m; reflexivity.
  - destruct n as [| n]; destruct m as [| m]; simpl; try reflexivity.
    + now rewrite IH.
    + apply IH.
    + apply IH.
Qed.

Lemma get_lower (n : nat) (s : string) :
  String.get n (lower s) = option_map lower_char (String.get n s).
Proof.
  revert n. induction s as [| a s IH]; intros n; simpl; [reflexivity |].
  destruct n; [reflexivity | apply IH].
Qed.

Lemma char_differs_lower (s : string) (i : Z) (c : ascii) :
  is_separator c = true -> char_differs (lower s) i c = char_differs s i c.
Proof.
  intros Hc. unfold char_differs. rewrite get_lower.
  destruct (String.get (Z.to_nat i) s); simpl; [| reflexivity].
  now rewrite lower_char_eqb_separator.
Qed.

Lemma slice_to_lower (k : Z) (s : string) : slice_to k (lower s) = lower (slice_to k s).
Proof. apply substring_lower. Qed.

Lemma slice_from_lower (k : Z) (s : string) :
  slice_from k (lower s) = lower (slice_from k s).
Proof. unfold slice_from. rewrite length_lower. apply substring_lower. Qed.

End PyStrFacts.

Module OsPathFacts.
Import PyStr PyStrFacts OsPath.

Lemma skip_leading_dots_lower (fuel : nat) (p : string) (c : ascii) (i j : Z) :
  is_separator c = true ->
  skip_leading_dots fuel (lower p) c i j = skip_leading_dots fuel p c i j.
Proof.
  intros Hc. revert i.
  induction fuel as [| fuel IH]; intros i; simpl; [reflexivity |].
  now rewrite char_differs_lower, IH.
Qed.

Lemma _splitext_lower (p : string) (sep : ascii) (altsep : option ascii) (extsep : ascii) :
  is_separator sep = true ->
  match altsep with Some a => is_separator a = true | None => True end ->
  is_separator extsep = true ->
  _splitext (lower p) sep altsep extsep =
  (lower (fst (_splitext p sep altsep extsep)), lower (snd (_splitext p sep altsep extsep))).
Proof.
  intros Hs Ha He. unfold _splitext.
  rewrite (rfind_lower sep), (rfind_lower extsep) by assumption.
  assert (Halt : match altsep with
                 | Some a => Z.max (rfind sep p) (rfind a (lower p))
                 | None => rfind sep p
                 end =
                 match altsep with
                 | Some a => Z.max (rfind sep p) (rfind a p)
                 | None => rfind sep p
                 end).
  { destruct altsep as [a |]; [now rewrite rfind_lower | reflexivity]. }
  rewrite Halt. rewrite skip_leading_dots_lower by assumption.
  match goal with |- context [if ?b then _ else _] => destruct b end; simpl.
  - now rewrite slice_to_lower, slice_from_lower.
  - reflexivity.
Qed.

(** Lower-casing a path lower-cases its extension and nothing else about
    where the split falls. *)
Lemma splitext_lower (os : flavour) (p : string) :
  snd (splitext os (lower p)) = lower (snd (splitext os p)).
Proof.
  destruct os; unfold splitext; rewrite _splitext_lower; try reflexivity; exact I.
Qed.

(** [splitext] on a few paths, as Python gives them. *)
Example splitext_tar_gz :
  splitext Posix "a/b.c/x.tar.gz" = ("a/b.c/x.tar", ".gz").
Proof. reflexivity. Qed.

Example splitext_hidden_file : splitext Posix "a/b.c/.zip" = ("a/b.c/.zip", "").
Proof. reflexivity. Qed.

Example splitext_dot_in_directory : splitext Posix "a/b.c/xzip" = ("a/b.c/xzip", "").
Proof. reflexivity. Qed.

Example splitext_windows_path : splitext Nt "C:\b.c\x.ZIP" = ("C:\b.c\x", ".ZIP").
Proof. reflexivity. Qed.

End OsPathFacts.


(** ** [extract_archive] *)

Section ExtractFacts.
Context {W : Type} (env : Env W).

Lemma file_ext_lower (p : string) : file_ext env (PyStr.lower p) = file_ext env p.
Proof.
  unfold file_ext. rewrite OsPathFacts.splitext_lower. apply PyStrFacts.lower_idem.
Qed.

Lemma extract_archive_zip (p d : string) :
  file_ext env p = ".zip" -> routed_to env p d ZipRoutine.
Proof. intros H s. unfold extract_archive. rewrite H. reflexivity. Qed.

Lemma extract_archive_tar (p d : string) :
  In (file_ext env p) tar_suffixes -> routed_to env p d TarRoutine.
Proof.
  intros H s. unfold extract_archive.
  destruct H as [H | [H | [H | []]]]; rewrite <- H; reflexivity.
Qed.

Lemma eqb_false_of_neq (a b : string) : a <> b -> String.eqb a b = false.
Proof. intros H. now apply String.eqb_neq. Qed.

Lemma extract_archive_other (p d : string) (s : State W) :
  ~ In (file_ext env p) supported_suffixes ->
  extract_archive env p d s =
  (s, inl (ValueError ("Unsupported archive format: " ++ file_ext env p))).
Proof.
  intros H. unfold extract_archive, supported_suffixes in *. simpl in H.
  rewrite (eqb_false_of_neq (file_ext env p) ".zip") by intuition congruence.
  simpl.
  rewrite (eqb_false_of_neq (file_ext env p) ".tar") by intuition congruence.
  rewrite (eqb_false_of_neq (file_ext env p) ".gz") by intuition congruence.
  rewrite (eqb_false_of_neq (file_ext env p) ".tgz") by intuition congruence.
  reflexivity.
Qed.

(** A routine, once invoked, leaves its call in the trace; a raise does not. *)
Lemma invoke_extends_trace (r : routine) (p d : string) (s : State W) :
  exists ev, trace (fst (invoke env r p d s)) = (trace s ++ [ev])%list.
Proof.
  destruct r; unfold invoke, extern.
  - destruct (zip_extractall env p d (world s)) as [w' res]. simpl. eauto.
  - destruct (tar_extractall env p d (world s)) as [w' res]. simpl. eauto.
Qed.

Lemma invoke_call (r : routine) (p d : string) (s : State W) :
  exists res, trace (fst (invoke env r p d s)) =
              (trace s ++ [ECall (match r with
                                  | ZipRoutine => CZipExtractall p d
                                  | TarRoutine => CTarExtractall p d
                                  end) res])%list.
Proof.
  destruct r; unfold invoke, extern.
  - destruct (zip_extractall env p d (world s)) as [w' res]. simpl. eauto.
  - destruct (tar_extractall env p d (world s)) as [w' res]. simpl. eauto.
Qed.

Lemma supported_dec (e : string) :
  e = ".zip" \/ In e tar_suffixes \/ ~ In e supported_suffixes.
Proof.
  unfold tar_suffixes, supported_suffixes. simpl.
  destruct (string_dec e ".zip"); [now left |].
  destruct (string_dec e ".tar"); [right; left; now left |].
  destruct (string_dec e ".gz"); [right; left; right; now left |].
  destruct (string_dec e ".tgz"); [right; left; right; right; now left |].
  right; right. intuition congruence.
Qed.

Lemma list_neq_app_one {A} (l : list A) (x : A) : l <> (l ++ [x])%list.
Proof.
  intros H. apply (f_equal (@List.length A)) in H.
  rewrite length_app in H. simpl in H. lia.
Qed.

(** The routine a path is routed to is unique when the world can be started. *)
Lemma routed_to_by_ext (p d : string) (r : routine) (s : State W) :
  extract_archive env p d s = invoke env r p d s ->
  match r with
  | ZipRoutine => file_ext env p = ".zip"
  | TarRoutine => In (file_ext env p) tar_suffixes
  end.
Proof.
  intros H.
  destruct (supported_dec (file_ext env p)) as [Hz | [Ht | Hn]].
  - destruct r; [assumption |].
    rewrite (extract_archive_zip p d Hz s) in H.
    destruct (invoke_call ZipRoutine p d s) as [r1 H1].
    destruct (invoke_call TarRoutine p d s) as [r2 H2].
    rewrite H in H1. rewrite H1 in H2.
    apply app_inj_tail in H2. destruct H2 as [_ H2]. discriminate H2.
  - destruct r; [| assumption].
    rewrite (extract_archive_tar p d Ht s) in H.
    destruct (invoke_call ZipRoutine p d s) as [r1 H1].
    destruct (invoke_call TarRoutine p d s) as [r2 H2].
    rewrite <- H in H1. rewrite H1 in H2.
    apply app_inj_tail in H2. destruct H2 as [_ H2]. discriminate H2.
  - rewrite (extract_archive_other p d s Hn) in H.
    destruct (invoke_extends_trace r p d s) as [ev Hev].
    rewrite <- H in Hev. simpl in Hev.
    exfalso. exact (list_neq_app_one _ _ Hev).
Qed.

End ExtractFacts.

(** C4. A path whose (lower-cased) suffix is none of .zip, .tar, .gz, .tgz
    makes [extract_archive] raise [ValueError] (the spec's FormatError) with
    the message "Unsupported archive format: " followed by that suffix; the
    state comes back as it was: the world is untouched and no library
    routine was called, so nothing is written to the destination. *)
Theorem extract_archive_unsupported_suffix :
  forall (W : Type) (env : Env W) (archive_path extract_to : string) (s : State W),
    ~ In (file_ext env archive_path) supported_suffixes ->
    extract_archive env archive_path extract_to s =
    (s, inl (ValueError ("Unsupported archive format: " ++ file_ext env archive_path))).
Proof. intros W env p d s H. now apply extract_archive_other. Qed.

Lemma extract_archive_unsupported_suffix_witness :
  extract_archive Mock.env "backup.RAR" "/tmp/tmpa1" (init_state ["/tmp/tmpa1"]) =
  (init_state ["/tmp/tmpa1"], inl (ValueError "Unsupported archive format: .rar")).
Proof.
  apply (extract_archive_unsupported_suffix Mock.world Mock.env "backup.RAR" "/tmp/tmpa1").
  vm_compute. intuition discriminate.
Defined.

(** C5. [extract_archive] picks its routine from the suffix alone: suffix
    .zip goes to the zip routine, each of .tar, .gz, .tgz (so also
    x.tar.gz) goes to the tar routine, and two paths with the same suffix
    go to the same routine. *)
Theorem extract_archive_routes_by_suffix :
  forall (W : Type) (env : Env W) (archive_path extract_to : string),
    (file_ext env archive_path = ".zip" ->
     routed_to env archive_path extract_to ZipRoutine) /\
    (In (file_ext env archive_path) [".tar"; ".gz"; ".tgz"] ->
     routed_to env archive_path extract_to TarRoutine) /\
    (forall (other : string) (r : routine),
        snd (OsPath.splitext (os_flavour env) other) =
        snd (OsPath.splitext (os_flavour env) archive_path) ->
        routed_to env archive_path extract_to r ->
        routed_to env other extract_to r).
Proof.
  intros W env p d. split; [| split].
  - apply extract_archive_zip.
  - apply extract_archive_tar.
  - intros q r Hext Hp s.
    assert (Hq : file_ext env q = file_ext env p) by (unfold file_ext; now rewrite Hext).
    (* the routine of [p] is read back from its suffix at state [s] *)
    pose proof (routed_to_by_ext env p d r s (Hp s)) as Hr.
    destruct r.
    + apply extract_archive_zip. congruence.
    + apply extract_archive_tar. now rewrite Hq.
Qed.

Lemma extract_archive_routes_by_suffix_witness :
  routed_to Mock.env "project.zip" "/tmp/t" ZipRoutine /\
  routed_to Mock.env "src/project.tar.gz" "/tmp/t" TarRoutine /\
  routed_to Mock.env "other.v2.zip" "/tmp/t" ZipRoutine.
Proof.
  destruct (extract_archive_routes_by_suffix Mock.world Mock.env "project.zip" "/tmp/t")
    as [Hz [_ Hsame]].
  destruct (extract_archive_routes_by_suffix Mock.world Mock.env "src/project.tar.gz" "/tmp/t")
    as [_ [Ht _]].
  split; [apply Hz; reflexivity |].
  split; [apply Ht; vm_compute; tauto |].
  apply Hsame; [reflexivity | apply Hz; reflexivity].
Defined.

(** C10. Suffix dispatch ignores letter case: a path whose suffix is an
    upper- or mixed-case spelling of a supported suffix (.ZIP, .Tar, ...)
    is routed to the same routine as a path with the lower-case suffix. *)
Theorem extract_archive_case_insensitive :
  forall (W : Type) (env : Env W) (variant lowercase extract_to : string),
    PyStr.lower (snd (OsPath.splitext (os_flavour env) variant)) =
    snd (OsPath.splitext (os_flavour env) lowercase) ->
    In (snd (OsPath.splitext (os_flavour env) lowercase)) supported_suffixes ->
    exists r : routine,
      routed_to env variant extract_to r /\ routed_to env lowercase extract_to r.
Proof.
  intros W env p q d Hlow Hin.
  assert (Hp : file_ext env p = snd (OsPath.splitext (os_flavour env) q)) by exact Hlow.
  assert (Hq : file_ext env q = snd (OsPath.splitext (os_flavour env) q)).
  { unfold file_ext.
    destruct Hin as [H | [H | [H | [H | []]]]]; rewrite <- H; reflexivity. }
  rewrite <- Hq in Hin, Hp.
  destruct Hin as [Hz | Ht].
  - exists ZipRoutine. split; apply extract_archive_zip; congruence.
  - exists TarRoutine. split; apply extract_archive_tar; [rewrite Hp |]; exact Ht.
Qed.

Lemma extract_archive_case_insensitive_witness :
  exists r : routine,
    routed_to Mock.env "Release/Build.Tar" "/tmp/t" r /\
    routed_to Mock.env "old/build-1.tar" "/tmp/t" r.
Proof.
  apply (extract_archive_case_insensitive Mock.world Mock.env
           "Release/Build.Tar" "old/build-1.tar" "/tmp/t").
  - reflexivity.
  - vm_compute. tauto.
Defined.

(** In particular a path and its lower-case spelling go the same way. *)
Corollary extract_archive_lower_path {W} (env : Env W) (p d : string) :
  In (file_ext env p) supported_suffixes ->
  exists r : routine,
    routed_to env p d r /\ routed_to env (PyStr.lower p) d r.
Proof.
  intros Hin. pose proof (file_ext_lower env p) as Hext.
  destruct Hin as [Hz | Ht].
  - exists ZipRoutine. split; apply extract_archive_zip; congruence.
  - exists TarRoutine. split; apply extract_archive_tar; [| rewrite Hext]; exact Ht.
Qed.

(** ** Reading a trace piece by piece *)

Section TraceFacts.

Lemma outcome_app (a b : list event) :
  existsb is_complete a = false -> outcome (a ++ b)%list = outcome b.
Proof.
  induction a as [| e a IH]; simpl; intros H; [reflexivity |].
  apply orb_false_iff in H. destruct H as [He Ha].
  destruct e; simpl in *; try discriminate; now apply IH.
Qed.

Lemma progress_log_app (a b : list event) :
  progress_log (a ++ b)%list = (progress_log a ++ progress_log b)%list.
Proof.
  induction a as [| e a IH]; simpl; [reflexivity |].
  destruct e; simpl; now rewrite IH.
Qed.

Lemma status_log_app (a b : list event) :
  status_log (a ++ b)%list = (status_log a ++ status_log b)%list.
Proof.
  induction a as [| e a IH]; simpl; [reflexivity |].
  destruct e; simpl; now rewrite IH.
Qed.

Lemma calls_app (a b : list event) :
  calls (a ++ b)%list = (calls a ++ calls b)%list.
Proof.
  induction a as [| e a IH]; simpl; [reflexivity |].
  destruct e; simpl; now rewrite IH.
Qed.

Lemma operations_app (a b : list event) :
  operations (a ++ b)%list = (operations a ++ operations b)%list.
Proof. unfold operations. now rewrite calls_app, map_app. Qed.

Lemma phase_eqb_eq (p q : phase) : phase_eqb p q = true <-> p = q.
Proof. destruct p, q; simpl; split; intros H; try reflexivity; discriminate. Qed.

Lemma phases_eqb_eq (a b : list phase) : phases_eqb a b = true -> a = b.
Proof.
  revert b. induction a as [| x a IH]; intros [| y b]; simpl; intros H;
    try reflexivity; try discriminate.
  apply andb_prop in H. destruct H as [H1 H2].
  apply phase_eqb_eq in H1. apply IH in H2. congruence.
Qed.

Lemma operation_eqb_eq (a b : operation) : operation_eqb a b = true <-> a = b.
Proof. destruct a, b; simpl; split; intros H; try reflexivity; discriminate. Qed.

Lemma nodupb_sound {A} (eqb : A -> A -> bool) (l : list A) :
  (forall a b, eqb a b = true <-> a = b) ->
  nodupb eqb l = true -> NoDup l.
Proof.
  intros Heqb.
  induction l as [| x l IH]; simpl; intros H; constructor.
  - apply andb_prop in H. destruct H as [H _].
    apply negb_true_iff in H. intros Hin.
    assert (existsb (eqb x) l = true) as Hex.
    { apply existsb_exists. exists x. split; [assumption | now apply Heqb]. }
    congruence.
  - apply andb_prop in H. now apply IH.
Qed.

Lemma last_phase_cons (cur : option phase) (p : phase) (path : list phase) :
  last_phase cur (p :: path) = last_phase (Some p) path.
Proof.
  unfold last_phase. simpl.
  destruct (rev path) as [| q l] eqn:E; simpl; reflexivity.
Qed.

(** The path of a trace in two pieces: the second piece starts in the
    state the first one ended in. *)
Lemma phase_path_from_app (cur : option phase) (a b : list event) :
  phase_path_from cur (a ++ b)%list =
  (phase_path_from cur a
   ++ phase_path_from (last_phase cur (phase_path_from cur a)) b)%list.
Proof.
  revert cur. induction a as [| e a IH]; intros cur; simpl; [reflexivity |].
  destruct (phase_of_event e) as [p |]; [| apply IH].
  destruct cur as [q |].
  - destruct (phase_eqb p q); [apply IH |].
    simpl. rewrite last_phase_cons. now rewrite IH.
  - simpl. rewrite last_phase_cons. now rewrite IH.
Qed.

Lemma NoDup_app_two_r {A} (l : list A) (a b : A) :
  NoDup (l ++ [a; b])%list -> NoDup (l ++ [a])%list /\ NoDup l.
Proof.
  intros H. change [a; b] with ([a] ++ [b])%list in H. rewrite app_assoc in H.
  apply NoDup_remove_1 in H. rewrite app_nil_r in H.
  split; [assumption |].
  rewrite <- (app_nil_r (l ++ [a])%list) in H. rewrite <- app_assoc in H.
  apply NoDup_remove_1 in H. now rewrite app_nil_r in H.
Qed.

(** What [interrupted_upload] says, as propositions. *)
Lemma interrupted_upload_facts (tr : list event) :
  interrupted_upload tr = true ->
  existsb is_complete tr = false /\
  existsb is_rmtree tr = false /\
  (exists k, (1 <= k <= 7)%nat /\ phase_path tr = firstn k work_path) /\
  NoDup (operations tr ++ [OpPathExists; OpRmtree])%list.
Proof.
  unfold interrupted_upload. intros H.
  apply andb_prop in H. destruct H as [H Hnd].
  apply andb_prop in H. destruct H as [H Hk].
  apply andb_prop in H. destruct H as [Hc Hr].
  apply negb_true_iff in Hc. apply negb_true_iff in Hr.
  repeat split; try assumption.
  - apply existsb_exists in Hk. destruct Hk as (k & Hin & Heq).
    exists k. split; [| now apply phases_eqb_eq].
    simpl in Hin. lia.
  - now apply (nodupb_sound operation_eqb _ operation_eqb_eq).
Qed.

End TraceFacts.

(** ** Running the worker *)

Ltac destruct_scrutinee :=
  match goal with
  | |- context [match ?x with _ => _ end] =>
      lazymatch x with
      | context [match _ with _ => _ end] => fail
      | _ => destruct x eqn:?
      end
  end.

Ltac unfold_worker :=
  cbv beta iota zeta delta
    [run_upload create_github_repo extract_archive cleanup try_except bind ret raise
     emit extern set_temp_dir get_temp_dir init_state world trace temp_dir existsb negb].

Ltac run_all_paths := unfold_worker; repeat (destruct_scrutinee; cbv beta iota).

Section RunFacts.
Context {W : Type} (env : Env W).

(** [cleanup] never raises, keeps [self.temp_dir] and adds one of the four
    [cleanup_trace]s. *)
Lemma cleanup_cases (s : State W) :
  exists w' cl,
    cleanup env s =
    ({| world := w'; trace := (trace s ++ cl)%list; temp_dir := temp_dir s |}, inr tt)
    /\ cleanup_trace cl.
Proof.
  destruct s as [w tr [d |]]; unfold_worker.
  - destruct (truthy d).
    + destruct (path_exists env d w).
      * destruct (rmtree env d w) as [w' [e | []]]; cbv beta iota.
        -- eexists w', [_; _; _]. rewrite <- !app_assoc. split; [reflexivity | constructor].
        -- eexists w', [_; _]. rewrite <- !app_assoc. split; [reflexivity | constructor].
      * eexists w, [_]. split; [reflexivity | constructor].
    + exists w, []. rewrite app_nil_r. split; [reflexivity | constructor].
  - exists w, []. rewrite app_nil_r. split; [reflexivity | constructor].
Qed.

(** Best effort: with a directory recorded and present, [rmtree] is called on it. *)
Lemma cleanup_calls_rmtree (s : State W) (d : string) :
  temp_dir s = Some d -> truthy d = true -> path_exists env d (world s) = true ->
  exists r, In (ECall (CRmtree d) r) (trace (fst (cleanup env s))).
Proof.
  destruct s as [w tr td]. cbn [temp_dir world]. intros Hd Ht Hex. subst td.
  unfold_worker. rewrite Ht, Hex.
  destruct (rmtree env d w) as [w' [e | []]]; cbv beta iota.
  - exists (inl e). apply in_or_app. left. apply in_or_app. right. now left.
  - exists (inr RNone). apply in_or_app. right. now left.
Qed.

(** Every way [run_upload] can go, from a fresh state. *)
Lemma run_upload_cases (job : Job) (w : W) :
  match run_upload env job (init_state w) with
  | (s1, inl e) => interrupted_upload (trace s1) = true
  | (s1, inr repo_url) =>
      exists d r repo response dict,
        trace s1 = upload_trace env job d r repo response repo_url /\
        temp_dir s1 = Some d /\
        json response = inr (PyDict dict) /\
        dict_get dict "html_url" = Some repo_url
  end.
Proof.
  run_all_paths.
  all: try (vm_compute; reflexivity).
  all: try (eexists _, ZipRoutine; repeat eexists; eassumption).
  all: try (eexists _, TarRoutine; repeat eexists; eassumption).
Qed.

(** Every way [run] can go: either [run_upload] raised, the failure was
    reported and [cleanup] ran; or it returned, [cleanup] ran and success was
    reported. *)
Lemma run_cases (job : Job) (w : W) :
  (exists s1 e cl w',
      run_upload env job (init_state w) = (s1, inl e) /\
      run_body env job (init_state w) = (s1, inl e) /\
      interrupted_upload (trace s1) = true /\
      cleanup_trace cl /\
      run env job (init_state w) =
      (after_events s1 ([EStatus ("Error: " ++ str_exn e); EComplete false (str_exn e)] ++ cl) w',
       inr tt))
  \/
  (exists s1 repo_url d r repo response dict cl w',
      run_upload env job (init_state w) = (s1, inr repo_url) /\
      run_body env job (init_state w) =
      (after_events s1
         ([EStatus "Cleaning up temporary files..."] ++ cl ++
          [EProgress 100;
           EComplete true ("Successfully uploaded to " ++ format_value env repo_url)]) w',
       inr tt) /\
      run env job (init_state w) = run_body env job (init_state w) /\
      trace s1 = upload_trace env job d r repo response repo_url /\
      temp_dir s1 = Some d /\
      json response = inr (PyDict dict) /\
      dict_get dict "html_url" = Some repo_url /\
      cleanup_trace cl).
Proof.
  pose proof (run_upload_cases job w) as Hup.
  unfold run, run_body, try_except, bind.
  destruct (run_upload env job (init_state w)) as [s1 [e | repo_url]].
  - left.
    unfold run_handler, bind, emit. cbv beta iota.
    match goal with |- context [cleanup env ?s] =>
      destruct (cleanup_cases s) as (w' & cl & Hcl & Hshape) end.
    exists s1, e, cl, w'. repeat split; try assumption.
    rewrite Hcl. unfold after_events. cbn [trace temp_dir world].
    now rewrite <- !app_assoc.
  - right.
    destruct Hup as (d & r & repo & response & dict & Htr & Htd & Hjson & Hurl).
    unfold run_finish, bind, emit. cbv beta iota.
    match goal with |- context [cleanup env ?s] =>
      destruct (cleanup_cases s) as (w' & cl & Hcl & Hshape) end.
    exists s1, repo_url, d, r, repo, response, dict, cl, w'.
    rewrite Hcl. cbv beta iota. unfold after_events. cbn [trace temp_dir world].
    rewrite <- !app_assoc.
    repeat split; assumption.
Qed.

End RunFacts.


(** ** The run as a whole *)

Section RunTheorems.
Context {W : Type} (env : Env W).

Lemma run_trace_failure (job : Job) (w : W) (s1 : State W) (e : exn) :
  run_body env job (init_state w) = (s1, inl e) ->
  exists cl,
    run_trace env job w =
    (trace s1 ++ [EStatus ("Error: " ++ str_exn e); EComplete false (str_exn e)] ++ cl)%list
    /\ cleanup_trace cl
    /\ interrupted_upload (trace s1) = true
    /\ snd (run env job (init_state w)) = inr tt
    /\ fst (run env job (init_state w)) =
       fst (cleanup env (after_events s1 [EStatus ("Error: " ++ str_exn e);
                                          EComplete false (str_exn e)] (world s1))).
Proof.
  intros Hbody.
  destruct (run_cases env job w) as
    [(s1' & e' & cl & w' & Hup & Hb & Hint & Hcl & Hrun)
    | (s1' & url & d & r & repo & resp & dict & cl & w' & Hup & Hb & _)].
  - rewrite Hb in Hbody. inversion Hbody; subst s1' e'. clear Hbody.
    assert (Hhandler :
              run env job (init_state w) =
              cleanup env (after_events s1 [EStatus ("Error: " ++ str_exn e);
                                            EComplete false (str_exn e)] (world s1))).
    { unfold run, try_except. rewrite Hb.
      unfold run_handler, bind, emit, after_events. cbv beta iota.
      cbn [world trace temp_dir]. rewrite <- app_assoc. reflexivity. }
    exists cl. unfold run_trace. rewrite <- Hhandler. rewrite Hrun.
    cbn [fst snd after_events trace].
    repeat split; assumption.
  - rewrite Hb in Hbody. discriminate Hbody.
Qed.

Lemma run_trace_success (job : Job) (w : W) (m : string) :
  outcome (run_trace env job w) = Some (true, m) ->
  exists d r repo response dict repo_url cl,
    run_trace env job w =
    (upload_trace env job d r repo response repo_url
     ++ [EStatus "Cleaning up temporary files..."] ++ cl
     ++ [EProgress 100;
         EComplete true ("Successfully uploaded to " ++ format_value env repo_url)])%list
    /\ cleanup_trace cl
    /\ json response = inr (PyDict dict)
    /\ dict_get dict "html_url" = Some repo_url
    /\ m = "Successfully uploaded to " ++ format_value env repo_url.
Proof.
  intros Hout.
  destruct (run_cases env job w) as
    [(s1 & e & cl & w' & Hup & Hb & Hint & Hcl & Hrun)
    | (s1 & url & d & r & repo & resp & dict & cl & w' & Hup & Hb & Hrun & Htr & Htd & Hj & Hu & Hcl)].
  - unfold run_trace in Hout. rewrite Hrun in Hout.
    cbn [fst after_events trace] in Hout.
    destruct (interrupted_upload_facts _ Hint) as (Hnc & _).
    rewrite (outcome_app _ _ Hnc) in Hout. simpl in Hout. discriminate Hout.
  - exists d, r, repo, resp, dict, url, cl.
    unfold run_trace in Hout |- *. rewrite Hrun, Hb in Hout. rewrite Hrun, Hb.
    cbn [fst after_events trace] in Hout |- *. rewrite Htr in Hout. rewrite Htr.
    repeat split; try assumption.
    rewrite outcome_app in Hout by reflexivity.
    cbn [app outcome outcome_of] in Hout.
    rewrite outcome_app in Hout by (inversion Hcl; reflexivity).
    cbn [app outcome outcome_of] in Hout. congruence.
Qed.

Lemma run_trace_shape (job : Job) (w : W) :
  (exists t1 e cl,
      run_trace env job w =
      (t1 ++ [EStatus ("Error: " ++ str_exn e); EComplete false (str_exn e)] ++ cl)%list
      /\ interrupted_upload t1 = true /\ cleanup_trace cl)
  \/
  (exists d r repo response repo_url cl,
      run_trace env job w =
      (upload_trace env job d r repo response repo_url
       ++ [EStatus "Cleaning up temporary files..."] ++ cl
       ++ [EProgress 100;
           EComplete true ("Successfully uploaded to " ++ format_value env repo_url)])%list
      /\ cleanup_trace cl).
Proof.
  destruct (run_cases env job w) as
    [(s1 & e & cl & w' & Hup & Hb & Hint & Hcl & Hrun)
    | (s1 & url & d & r & repo & resp & dict & cl & w' & Hup & Hb & Hrun & Htr & Htd & Hj & Hu & Hcl)].
  - left. exists (trace s1), e, cl. unfold run_trace. rewrite Hrun.
    repeat split; assumption.
  - right. exists d, r, repo, resp, url, cl. unfold run_trace. rewrite Hrun, Hb.
    cbn [fst after_events trace]. rewrite Htr. split; [reflexivity | assumption].
Qed.

Lemma not_in_of_existsb_false {A} (f : A -> bool) (l : list A) (x : A) :
  existsb f l = false -> f x = true -> ~ In x l.
Proof.
  intros Hl Hx Hin.
  assert (existsb f l = true) by (apply existsb_exists; eauto). congruence.
Qed.

Lemma run_failure_report_precedes_cleanup (job : Job) (w : W) (s1 : State W) (e : exn) :
  run_body env job (init_state w) = (s1, inl e) ->
  reported_then_cleaned_up env job w s1 e.
Proof.
  intros Hbody.
  destruct (run_trace_failure job w s1 e Hbody) as (cl & Htr & Hcl & Hint & Hret & Hfst).
  destruct (interrupted_upload_facts _ Hint) as (Hnc & Hnr & _ & _).
  exists cl. repeat split; try assumption.
  - rewrite Htr. rewrite (outcome_app _ _ Hnc). reflexivity.
  - intros d Hd Ht Hex.
    destruct (cleanup_calls_rmtree env
                (after_events s1 [EStatus ("Error: " ++ str_exn e);
                                  EComplete false (str_exn e)] (world s1)) d Hd Ht Hex)
      as [r Hin].
    exists r. rewrite <- Hfst in Hin. fold (run_trace env job w) in Hin.
    rewrite Htr in Hin.
    apply in_app_or in Hin. destruct Hin as [Hin | Hin].
    + exfalso. revert Hin. now apply (not_in_of_existsb_false is_rmtree).
    + destruct Hin as [Hin | [Hin | Hin]]; [discriminate | discriminate | exact Hin].
Qed.

Lemma failure_path_of_interrupted (t1 cl : list event) (m : string) :
  interrupted_upload t1 = true -> cleanup_trace cl ->
  exists k cleaning,
    (1 <= k <= 7)%nat /\
    phase_path (t1 ++ [EStatus ("Error: " ++ m); EComplete false m] ++ cl)%list
    = failure_path k cleaning.
Proof.
  intros Hint Hcl.
  destruct (interrupted_upload_facts _ Hint) as (_ & _ & (k & Hk & Hpath) & _).
  unfold phase_path in *. rewrite phase_path_from_app, Hpath.
  assert (Hks : (k = 1 \/ k = 2 \/ k = 3 \/ k = 4 \/ k = 5 \/ k = 6 \/ k = 7)%nat) by lia.
  inversion Hcl; subst cl.
  - exists k, false. split; [assumption |].
    repeat (destruct Hks as [-> | Hks]; [reflexivity |]). subst k; reflexivity.
  - exists k, true. split; [assumption |].
    repeat (destruct Hks as [-> | Hks]; [reflexivity |]). subst k; reflexivity.
  - exists k, true. split; [assumption |].
    repeat (destruct Hks as [-> | Hks]; [reflexivity |]). subst k; reflexivity.
  - exists k, true. split; [assumption |].
    repeat (destruct Hks as [-> | Hks]; [reflexivity |]). subst k; reflexivity.
Qed.

Lemma NoDup_failure_path (k : nat) (cleaning : bool) : NoDup (failure_path k cleaning).
Proof.
  assert (Hk : (k = 0 \/ k = 1 \/ k = 2 \/ k = 3 \/ k = 4 \/ k = 5 \/ k = 6 \/ 7 <= k)%nat)
    by lia.
  assert (H7 : forall n, (7 <= n)%nat -> firstn n work_path = work_path).
  { intros n Hn. apply firstn_all2. simpl. exact Hn. }
  unfold failure_path.
  destruct Hk as [-> | [-> | [-> | [-> | [-> | [-> | [-> | Hk]]]]]]];
    [| | | | | | | rewrite (H7 k Hk)];
    destruct cleaning; simpl;
    repeat (constructor; [simpl; intuition discriminate |]); constructor.
Qed.

Lemma operations_cleanup (cl : list event) :
  cleanup_trace cl ->
  operations cl = [] \/ operations cl = [OpPathExists]
  \/ operations cl = [OpPathExists; OpRmtree].
Proof. intros H. inversion H; subst cl; simpl; auto. Qed.

Lemma NoDup_operations_with_cleanup (ops : list operation) (cl : list event) :
  NoDup (ops ++ [OpPathExists; OpRmtree])%list -> cleanup_trace cl ->
  NoDup (ops ++ operations cl)%list.
Proof.
  intros Hnd Hcl.
  destruct (NoDup_app_two_r _ _ _ Hnd) as [H1 H0].
  destruct (operations_cleanup cl Hcl) as [-> | [-> | ->]].
  - now rewrite app_nil_r.
  - assumption.
  - assumption.
Qed.

End RunTheorems.

(** ** A failing [rmtree] *)

Section CleanupFailure.
Context {W : Type} (env : Env W).

Lemma run_after_upload (job : Job) (w : W) :
  run env job (init_state w) =
  match run_upload env job (init_state w) with
  | (s1, inl e) =>
      cleanup env (after_events s1 [EStatus ("Error: " ++ str_exn e);
                                    EComplete false (str_exn e)] (world s1))
  | (s1, inr repo_url) =>
      let s2 := fst (cleanup env (after_events s1 [EStatus "Cleaning up temporary files..."]
                                               (world s1))) in
      (after_events s2
         [EProgress 100;
          EComplete true ("Successfully uploaded to " ++ format_value env repo_url)]
         (world s2), inr tt)
  end.
Proof.
  unfold run, run_body, try_except, bind.
  destruct (run_upload env job (init_state w)) as [s1 [e | url]].
  - unfold run_handler, bind, emit, after_events. cbv beta iota.
    cbn [world trace temp_dir]. rewrite <- app_assoc. reflexivity.
  - unfold run_finish, bind, emit. cbv beta iota. cbn [world trace temp_dir].
    fold (after_events s1 [EStatus "Cleaning up temporary files..."] (world s1)).
    destruct (cleanup_cases env
                (after_events s1 [EStatus "Cleaning up temporary files..."] (world s1)))
      as (w' & cl & Hcl & _).
    rewrite Hcl. cbv beta iota zeta. unfold after_events. cbn [fst world trace temp_dir].
    rewrite <- !app_assoc. reflexivity.
Qed.

Lemma run_upload_without_rmtree (f : string -> W -> W * (exn + unit)) (job : Job) (s : State W) :
  run_upload (with_rmtree env f) job s = run_upload env job s.
Proof. reflexivity. Qed.

(** When [cleanup] logs a failed [rmtree], it went through all of its
    branches; with an [rmtree] that works it logs the two calls and no
    warning. *)
Lemma cleanup_rmtree_failure (rm_ok : string -> W -> W * (exn + unit))
      (s : State W) (d : string) (e : exn) :
  (forall p w0, snd (rm_ok p w0) = inr tt) ->
  existsb is_rmtree (trace s) = false ->
  In (ECall (CRmtree d) (inl e)) (trace (fst (cleanup env s))) ->
  exists w1 w2,
    cleanup env s =
    (after_events s [ECall (CPathExists d) (inr (RBool true));
                     ECall (CRmtree d) (inl e);
                     EStatus (warning_line e)] w1, inr tt) /\
    cleanup (with_rmtree env rm_ok) s =
    (after_events s [ECall (CPathExists d) (inr (RBool true));
                     ECall (CRmtree d) (inr RNone)] w2, inr tt).
Proof.
  intros Hok Hnone.
  assert (Hfresh : ~ In (ECall (CRmtree d) (inl e)) (trace s)).
  { now apply (not_in_of_existsb_false is_rmtree). }
  destruct s as [w tr [d0 |]]; unfold_worker; cbn [trace] in Hfresh;
    [| intros Hin; contradiction].
  cbn [with_rmtree rmtree path_exists].
  destruct (truthy d0); [| intros Hin; contradiction].
  destruct (path_exists env d0 w).
  - pose proof (Hok d0 w) as Hrm.
    destruct (rm_ok d0 w) as [w2 [e2 | []]]; [discriminate Hrm |].
    destruct (rmtree env d0 w) as [w1 [e1 | []]]; cbv beta iota; cbn [fst trace]; intros Hin.
    + apply in_app_or in Hin. destruct Hin as [Hin | [Hin | []]]; [| discriminate Hin].
      apply in_app_or in Hin. destruct Hin as [Hin | [Hin | []]].
      * apply in_app_or in Hin. destruct Hin as [Hin | [Hin | []]];
          [contradiction | discriminate Hin].
      * inversion Hin; subst d0 e1.
        exists w1, w2. unfold after_events, warning_line. cbn [world trace temp_dir].
        rewrite <- !app_assoc. split; reflexivity.
    + apply in_app_or in Hin. destruct Hin as [Hin | [Hin | []]]; [| discriminate Hin].
      apply in_app_or in Hin. destruct Hin as [Hin | [Hin | []]];
        [contradiction | discriminate Hin].
  - cbv beta iota. cbn [fst trace]. intros Hin.
    apply in_app_or in Hin. destruct Hin as [Hin | [Hin | []]];
      [contradiction | discriminate Hin].
Qed.

End CleanupFailure.

Lemma rmtree_failure_compared {W} (env : Env W) (rm_ok : string -> W -> W * (exn + unit))
      (job : Job) (w : W) (d : string) (e : exn) :
  (forall p w0, snd (rm_ok p w0) = inr tt) ->
  In (ECall (CRmtree d) (inl e)) (run_trace env job w) ->
  only_a_warning_more env (with_rmtree env rm_ok) job w e.
Proof.
  intros Hok Hin.
  unfold only_a_warning_more, run_trace in *.
  rewrite !run_after_upload in *. rewrite run_upload_without_rmtree.
  pose proof (run_upload_cases env job w) as Hup.
  destruct (run_upload env job (init_state w)) as [s1 [e0 | url]].
  - destruct (interrupted_upload_facts _ Hup) as (Hnc & Hnr & _ & _).
    match type of Hin with context [cleanup env ?s] =>
      assert (Hnone : existsb is_rmtree (trace s) = false)
        by (cbn [after_events trace]; rewrite existsb_app, Hnr; reflexivity);
      destruct (cleanup_rmtree_failure env rm_ok s d e Hok Hnone Hin)
        as (w1 & w2 & Hf & Hg)
    end.
    rewrite Hf, Hg. cbn [fst after_events trace]. rewrite <- !app_assoc.
    rewrite !(outcome_app _ _ Hnc), !status_log_app, !progress_log_app.
    cbn [app status_log progress_log]. rewrite <- !app_assoc.
    repeat split; reflexivity.
  - destruct Hup as (d1 & r & repo & resp & dict & Htr & _).
    cbv zeta in Hin |- *. cbn [fst after_events trace] in Hin.
    apply in_app_or in Hin. destruct Hin as [Hin | [Hin | [Hin | []]]];
      [| discriminate Hin | discriminate Hin].
    match type of Hin with context [cleanup env ?s] =>
      assert (Hnone : existsb is_rmtree (trace s) = false)
        by (cbn [after_events trace]; rewrite Htr; destruct r; reflexivity);
      destruct (cleanup_rmtree_failure env rm_ok s d e Hok Hnone Hin)
        as (w1 & w2 & Hf & Hg)
    end.
    rewrite Hf, Hg. cbn [fst after_events trace]. rewrite Htr.
    change (format_value (with_rmtree env rm_ok) url) with (format_value env url).
    rewrite <- !app_assoc.
    rewrite !(outcome_app (upload_trace env job d1 r repo resp url)) by (destruct r; reflexivity).
    rewrite !status_log_app, !progress_log_app.
    cbn [app outcome outcome_of status_log progress_log].
    rewrite <- !app_assoc.
    repeat split; reflexivity.
Qed.

(** ** The run against the course of the steps *)

Ltac unfold_course :=
  cbv beta iota zeta delta
    [library_course on_world run_upload create_github_repo extract_archive cleanup
     try_except bind ret raise emit extern set_temp_dir get_temp_dir init_state
     world trace temp_dir existsb negb fst snd].

Section RunCourse.
Context {W : Type} (env : Env W).

(** [run_upload] stops where the steps stop, with the same exception, and
    returns when they complete, with the same address. *)
Lemma run_upload_course (job : Job) (w : W) :
  match library_course env job w, run_upload env job (init_state w) with
  | Stopped k e dir, (s1, inl e') =>
      e' = e /\ temp_dir s1 = dir /\
      phase_path (trace s1) = firstn (S (step_rank k)) work_path /\
      progress_log (trace s1) = progress_before k
  | Completed d url, (s1, inr url') =>
      url' = url /\ temp_dir s1 = Some d
  | _, _ => False
  end.
Proof.
  unfold_course.
  repeat (destruct_scrutinee; cbv beta iota).
  all: repeat split; vm_compute; reflexivity.
Qed.

Lemma cleanup_after_failure (s : State W) :
  exists w' cl,
    cleanup env s = (after_events s cl w', inr tt) /\
    cleanup_trace cl /\
    phase_path_from (Some Failed) cl
    = (if has_directory (temp_dir s) then [CleaningUp] else []).
Proof.
  destruct s as [w tr [d |]]; unfold_worker; unfold after_events, has_directory;
    cbn [world trace temp_dir].
  - destruct (truthy d).
    + destruct (path_exists env d w).
      * destruct (rmtree env d w) as [w' [e | []]]; cbv beta iota.
        -- eexists w', [_; _; _]. rewrite <- !app_assoc.
           split; [reflexivity | split; [constructor | reflexivity]].
        -- eexists w', [_; _]. rewrite <- !app_assoc.
           split; [reflexivity | split; [constructor | reflexivity]].
      * eexists w, [_]. split; [reflexivity | split; [constructor | reflexivity]].
    + exists w, []. rewrite app_nil_r. split; [reflexivity | split; [constructor | reflexivity]].
  - exists w, []. rewrite app_nil_r. split; [reflexivity | split; [constructor | reflexivity]].
Qed.

(** The whole run follows the course of the steps.  When step [k] raises
    [e], the states visited are those up to the state of step [k] and no
    further, then Failed, then CleaningUp if a directory was allocated;
    the outcome is the failure [str(e)] and the progress values are those
    of the steps before [k].  When the steps complete, the run goes through
    every state and reports success with the address the platform gave. *)
Lemma run_follows_library_course (job : Job) (w : W) :
  match library_course env job w with
  | Stopped k e dir =>
      outcome (run_trace env job w) = Some (false, str_exn e) /\
      phase_path (run_trace env job w)
      = failure_path (S (step_rank k)) (has_directory dir) /\
      progress_log (run_trace env job w) = progress_before k
  | Completed d url =>
      outcome (run_trace env job w)
      = Some (true, "Successfully uploaded to " ++ format_value env url) /\
      phase_path (run_trace env job w) = success_path /\
      progress_log (run_trace env job w) = [10; 30; 40; 50; 60; 70; 90; 100] /\
      exists r repo response dict cl,
        cleanup_trace cl /\
        json response = inr (PyDict dict) /\
        dict_get dict "html_url" = Some url /\
        run_trace env job w =
        (upload_trace env job d r repo response url
         ++ [EStatus "Cleaning up temporary files..."] ++ cl
         ++ [EProgress 100;
             EComplete true ("Successfully uploaded to " ++ format_value env url)])%list
  end.
Proof.
  pose proof (run_upload_course job w) as Hcourse.
  pose proof (run_upload_cases env job w) as Hcases.
  unfold run_trace. rewrite run_after_upload.
  destruct (library_course env job w) as [k e dir | d url];
    destruct (run_upload env job (init_state w)) as [s1 [e' | url']];
    try contradiction.
  - destruct Hcourse as (-> & Hdir & Hpath & Hprog).
    destruct (interrupted_upload_facts _ Hcases) as (Hnc & _).
    match goal with |- context [cleanup env ?s] =>
      destruct (cleanup_after_failure s) as (w' & cl & Hcl & Hshape & Hphase) end.
    rewrite Hcl. cbn [fst after_events trace temp_dir] in *. rewrite Hdir in Hphase.
    rewrite <- !app_assoc. split; [| split].
    + rewrite (outcome_app _ _ Hnc). reflexivity.
    + unfold phase_path in *. rewrite phase_path_from_app, Hpath.
      rewrite (phase_path_from_app _ [EStatus ("Error: " ++ str_exn e);
                                      EComplete false (str_exn e)] cl).
      assert (Hreport : forall q,
                 In q work_path ->
                 phase_path_from (Some q)
                   [EStatus ("Error: " ++ str_exn e); EComplete false (str_exn e)]
                 = [Failed]).
      { intros q Hq. simpl in Hq.
        destruct Hq as [<- | [<- | [<- | [<- | [<- | [<- | [<- | []]]]]]]]; reflexivity. }
      unfold failure_path.
      destruct k; cbn [step_rank firstn work_path last_phase rev app];
        (rewrite Hreport by (simpl; tauto));
        cbn [last_phase rev app]; rewrite Hphase;
        destruct (has_directory dir); reflexivity.
    + rewrite !progress_log_app, Hprog. cbn [progress_log app].
      inversion Hshape; subst cl; cbn [progress_log]; now rewrite app_nil_r.
  - destruct Hcourse as (-> & Hdir).
    destruct Hcases as (d' & r & repo & resp & dict & Htr & Htd & Hj & Hu).
    assert (d' = d) by congruence. subst d'.
    cbv zeta.
    match goal with |- context [cleanup env ?s] =>
      destruct (cleanup_cases env s) as (w' & cl & Hcl & Hshape) end.
    rewrite Hcl. cbn [fst after_events trace temp_dir]. rewrite Htr.
    rewrite <- !app_assoc.
    assert (Hnc : existsb is_complete (upload_trace env job d r repo resp url) = false)
      by (destruct r; reflexivity).
    assert (Hcc : existsb is_complete cl = false) by (inversion Hshape; reflexivity).
    split; [| split; [| split]].
    + rewrite (outcome_app _ _ Hnc). cbn [app outcome outcome_of].
      rewrite (outcome_app _ _ Hcc). reflexivity.
    + destruct r; inversion Hshape; subst cl; reflexivity.
    + destruct r; inversion Hshape; subst cl; reflexivity.
    + exists r, repo, resp, dict, cl. repeat split; assumption.
Qed.

End RunCourse.

(** When every library call of the seven steps returns normally, each from
    the world the one before left, the course is [Completed]. *)
Lemma library_course_when_all_succeed {W} (env : Env W) (job : Job)
      (w w1 w2 w3 w4 w5 w6 w7 w8 : W) (d : string) (repo : Repo) (html_url : pyval) :
  mkdtemp env w = (w1, inr d) ->
  on_world (extract_archive env (archive_path job) d) w1 = (w2, inr tt) ->
  repo_init env d w2 = (w3, inr repo) ->
  git_add env repo w3 = (w4, inr tt) ->
  git_commit env repo "Initial commit" w4 = (w5, inr tt) ->
  on_world (create_github_repo env job) w5 = (w6, inr html_url) ->
  create_remote env repo "origin" html_url w6 = (w7, inr tt) ->
  git_push env repo "origin" "master" w7 = (w8, inr tt) ->
  library_course env job w = Completed d html_url.
Proof.
  intros H1 H2 H3 H4 H5 H6 H7 H8. unfold library_course.
  now rewrite H1, H2, H3, H4, H5, H6, H7, H8.
Qed.

(** C6. When all the steps succeed (the course of the library calls is
    [Completed]), the trace is the successful [upload_trace], in which each
    progress value follows the step it marks (10 the allocation, 30 the
    extraction, 40 the init, 50 the staging, 60 the commit, 70 the remote
    creation, 90 the push), then the clean-up, then 100.  So the progress
    values are exactly 10, 30, 40, 50, 60, 70, 90, 100: they never decrease
    and the last one is 100. *)
Theorem progress_of_successful_run :
  forall (W : Type) (env : Env W) (job : Job) (w : W) (d : string) (html_url : pyval),
    library_course env job w = Completed d html_url ->
    (exists r repo response cl,
        cleanup_trace cl /\
        run_trace env job w =
        (upload_trace env job d r repo response html_url
         ++ [EStatus "Cleaning up temporary files..."] ++ cl
         ++ [EProgress 100;
             EComplete true ("Successfully uploaded to " ++ format_value env html_url)])%list) /\
    progress_log (run_trace env job w) = [10; 30; 40; 50; 60; 70; 90; 100] /\
    Sorted Z.le (progress_log (run_trace env job w)) /\
    last (progress_log (run_trace env job w)) 0 = 100.
Proof.
  intros W env job w d url Hcourse.
  pose proof (run_follows_library_course env job w) as Hrun. rewrite Hcourse in Hrun.
  destruct Hrun as (_ & _ & Hlog & r & repo & resp & dict & cl & Hcl & _ & _ & Htr).
  split; [exists r, repo, resp, cl; split; assumption |].
  rewrite Hlog. split; [reflexivity | split; [| reflexivity]].
  repeat (constructor; try lia).
Qed.

Lemma progress_of_successful_run_witness :
  progress_log (run_trace Mock.env Mock.job []) = [10; 30; 40; 50; 60; 70; 90; 100] /\
  last (progress_log (run_trace Mock.env Mock.job [])) 0 = 100.
Proof.
  destruct (progress_of_successful_run Mock.world Mock.env Mock.job [] "/tmp/tmpa1"
              (PyStr "https://example.test/user/myproj"))
    as (_ & Hlog & _ & Hlast).
  - reflexivity.
  - split; assumption.
Defined.

(** C8. When all the steps succeed (the course of the library calls is
    [Completed]), the run reports success, and the terminal message is
    "Successfully uploaded to " followed by the [html_url] field of the
    object the repository-creation call returned; that call appears in the
    trace with its response. *)
Theorem success_message_carries_html_url :
  forall (W : Type) (env : Env W) (job : Job) (w : W) (d : string) (html_url : pyval),
    library_course env job w = Completed d html_url ->
    outcome (run_trace env job w)
    = Some (true, "Successfully uploaded to " ++ format_value env html_url) /\
    (forall u, html_url = PyStr u ->
               outcome (run_trace env job w) = Some (true, "Successfully uploaded to " ++ u)) /\
    exists (response : Response) (dict : list (string * pyval)),
      In (ECall (CRequestsPost "https://api.github.com/user/repos" (request_headers job)
                               (json_dumps env (request_data job)))
                (inr (RResponse response)))
         (run_trace env job w) /\
      json response = inr (PyDict dict) /\
      dict_get dict "html_url" = Some html_url.
Proof.
  intros W env job w d url Hcourse.
  pose proof (run_follows_library_course env job w) as Hrun. rewrite Hcourse in Hrun.
  destruct Hrun as (Hout & _ & _ & r & repo & resp & dict & cl & Hcl & Hj & Hu & Htr).
  split; [exact Hout | split].
  - intros u Hurl. subst url. exact Hout.
  - exists resp, dict. repeat split; try assumption.
    rewrite Htr. apply in_or_app. left. unfold upload_trace.
    do 16 right. left. reflexivity.
Qed.

Lemma success_message_carries_html_url_witness :
  outcome (run_trace Mock.env Mock.job [])
  = Some (true, "Successfully uploaded to https://example.test/user/myproj").
Proof.
  destruct (success_message_carries_html_url Mock.world Mock.env Mock.job [] "/tmp/tmpa1"
              (PyStr "https://example.test/user/myproj")) as (Hout & _).
  - reflexivity.
  - exact Hout.
Defined.

(** The two paths of [run] side by side: on success no [rmtree] follows the
    terminal signal, on failure it does. *)
Example cleanup_before_report_on_both_paths :
  cleanup_before_report (run_trace Mock.env Mock.job []) = true /\
  cleanup_before_report (run_trace Mock.env Mock.rar_job []) = false.
Proof. split; reflexivity. Qed.


(** C1, what the code does where the spec has the clean-up come before the
    report (as it does on the success path). When a step raises [e], the
    failure is reported with the message [str(e)], and the clean-up comes
    after the report: [cleanup] is called last, does not raise, and calls
    [rmtree] on the working directory whenever one was allocated and still
    exists. *)
Theorem failure_reported_then_cleaned_up :
  forall (W : Type) (env : Env W) (job : Job) (w : W) (s1 : State W) (e : exn),
    run_body env job (init_state w) = (s1, inl e) ->
    reported_then_cleaned_up env job w s1 e.
Proof. intros W env job w s1 e H. now apply run_failure_report_precedes_cleanup. Qed.

Lemma failure_reported_then_cleaned_up_witness :
  reported_then_cleaned_up Mock.env Mock.rar_job []
    (fst (run_body Mock.env Mock.rar_job (init_state [])))
    (ValueError "Unsupported archive format: .rar").
Proof.
  apply (failure_reported_then_cleaned_up Mock.world Mock.env Mock.rar_job []).
  reflexivity.
Defined.

(** The run the two counterexamples below look at: an archive of an unknown
    kind.  The failure is reported, then the directory is removed. *)
Example rar_job_trace :
  run_trace Mock.env Mock.rar_job [] =
  [ EStatus "Creating temporary directory...";
    ECall CMkdtemp (inr (RStr "/tmp/tmpa1"));
    EProgress 10;
    EStatus "Extracting project.rar to temporary directory...";
    EStatus "Error: Unsupported archive format: .rar";
    EComplete false "Unsupported archive format: .rar";
    ECall (CPathExists "/tmp/tmpa1") (inr (RBool true));
    ECall (CRmtree "/tmp/tmpa1") (inr RNone) ].
Proof. reflexivity. Qed.

Example rar_job_phase_path :
  phase_path (run_trace Mock.env Mock.rar_job []) = [Idle; Extracting; Failed; CleaningUp].
Proof. reflexivity. Qed.

(** C1, as the spec words it, fails: with an archive of an unknown kind the
    directory is removed after the failure has been reported. *)
Lemma cleaned_up_before_failure_is_reported_fails :
  ~ cleaned_up_before_failure_is_reported.
Proof.
  intros H.
  destruct (H Mock.world Mock.env Mock.rar_job []
              (ValueError "Unsupported archive format: .rar")) as [Hbefore _].
  - eexists. reflexivity.
  - vm_compute in Hbefore. discriminate Hbefore.
Qed.

(** The shape of every run, whatever the libraries answer: the states are
    either the whole of Idle, ..., Pushing, CleaningUp, Succeeded, or an
    initial stretch of Idle, ..., Pushing followed at once by Failed, with
    CleaningUp after Failed when there is a directory to look at.  No state
    is entered twice and no library operation is called twice.  Which
    stretch it is, is settled by [run_follows_library_course]. *)
Theorem run_visits_states_forward :
  forall (W : Type) (env : Env W) (job : Job) (w : W),
    ((exists m, outcome (run_trace env job w) = Some (true, m)) /\
     phase_path (run_trace env job w) = success_path
     \/
     (exists m k cleaning,
         outcome (run_trace env job w) = Some (false, m) /\
         (1 <= k <= 7)%nat /\
         phase_path (run_trace env job w) = failure_path k cleaning)) /\
    NoDup (phase_path (run_trace env job w)) /\
    NoDup (operations (run_trace env job w)).
Proof.
  intros W env job w.
  destruct (run_trace_shape env job w) as
    [(t1 & e & cl & Htr & Hint & Hcl) | (d & r & repo & resp & url & cl & Htr & Hcl)].
  - destruct (failure_path_of_interrupted t1 cl (str_exn e) Hint Hcl)
      as (k & cleaning & Hk & Hpath).
    destruct (interrupted_upload_facts _ Hint) as (Hnc & _ & _ & Hnd).
    rewrite Htr. rewrite Hpath. split; [| split].
    + right. exists (str_exn e), k, cleaning.
      rewrite (outcome_app _ _ Hnc). repeat split; try reflexivity; lia.
    + apply NoDup_failure_path.
    + rewrite operations_app, operations_app.
      change (operations [EStatus ("Error: " ++ str_exn e); EComplete false (str_exn e)])
        with (@nil operation).
      now apply NoDup_operations_with_cleanup.
  - rewrite Htr.
    assert (Hpath : phase_path
                      (upload_trace env job d r repo resp url
                       ++ [EStatus "Cleaning up temporary files..."] ++ cl
                       ++ [EProgress 100;
                           EComplete true
                             ("Successfully uploaded to " ++ format_value env url)])%list
                    = success_path).
    { destruct r; inversion Hcl; subst cl; reflexivity. }
    rewrite Hpath. split; [| split].
    + left. split; [| reflexivity].
      eexists. rewrite outcome_app by reflexivity.
      cbn [app outcome outcome_of].
      rewrite outcome_app by (inversion Hcl; reflexivity).
      reflexivity.
    + apply (nodupb_sound phase_eqb _ phase_eqb_eq). reflexivity.
    + apply (nodupb_sound operation_eqb _ operation_eqb_eq).
      destruct r; inversion Hcl; subst cl; reflexivity.
Qed.

(** C2, as the spec words it, fails: on an error the run goes to Failed and
    only then to CleaningUp. *)
Lemma error_goes_to_cleaning_up_then_failed_fails :
  ~ error_goes_to_cleaning_up_then_failed.
Proof.
  intros H.
  destruct (H Mock.world Mock.env Mock.rar_job []) as [Hs | (k & Hk & Hf)].
  - vm_compute in Hs. discriminate Hs.
  - assert (Hks : (k = 1 \/ k = 2 \/ k = 3 \/ k = 4 \/ k = 5 \/ k = 6 \/ k = 7)%nat) by lia.
    repeat (destruct Hks as [-> | Hks]; [vm_compute in Hf; discriminate Hf |]).
    subst k. vm_compute in Hf. discriminate Hf.
Qed.

(** C2, what the code does where the spec has CleaningUp come before
    Failed (as it comes before Succeeded).  The states of a run follow the
    course of the steps: when step [k] raises, the states are those up to
    the state of [k], then Failed at once, no later step being run, and
    CleaningUp only after Failed, when a directory had been allocated; when
    no step raises, they are Idle, ..., Pushing, CleaningUp, Succeeded.  No
    state is entered twice and no library operation is called twice.  With
    an archive of an unknown kind the run goes Idle, Extracting, Failed,
    CleaningUp, where the spec has Idle, Extracting, CleaningUp, Failed. *)
Theorem run_reports_failed_before_cleaning_up :
  (forall (W : Type) (env : Env W) (job : Job) (w : W),
      match library_course env job w with
      | Stopped k e dir =>
          outcome (run_trace env job w) = Some (false, str_exn e) /\
          phase_path (run_trace env job w)
          = (firstn (S (step_rank k)) work_path
             ++ Failed :: (if has_directory dir then [CleaningUp] else []))%list
      | Completed d html_url =>
          outcome (run_trace env job w)
          = Some (true, "Successfully uploaded to " ++ format_value env html_url) /\
          phase_path (run_trace env job w)
          = [Idle; Extracting; Initializing; Staging; Committing; CreatingRemote; Pushing;
             CleaningUp; Succeeded]
      end /\
      NoDup (phase_path (run_trace env job w)) /\
      NoDup (operations (run_trace env job w))) /\
  library_course Mock.env Mock.rar_job []
  = Stopped Extract (ValueError "Unsupported archive format: .rar") (Some "/tmp/tmpa1") /\
  phase_path (run_trace Mock.env Mock.rar_job []) = [Idle; Extracting; Failed; CleaningUp] /\
  spec_failure_path 2 = [Idle; Extracting; CleaningUp; Failed] /\
  phase_path (run_trace Mock.env Mock.rar_job []) <> spec_failure_path 2.
Proof.
  split; [| repeat split; try reflexivity; vm_compute; discriminate].
  intros W env job w.
  destruct (run_visits_states_forward W env job w) as (_ & Hphases & Hoperations).
  pose proof (run_follows_library_course env job w) as Hrun.
  split; [| split; assumption].
  destruct (library_course env job w) as [k e dir | d url].
  - destruct Hrun as (Hout & Hpath & _). split; assumption.
  - destruct Hrun as (Hout & Hpath & _). split; assumption.
Qed.



(** C7. When the deletion of the working directory fails with [e], the run
    reports the same outcome and the same progress as it would have with a
    deletion that works, and its status log is that run's log with one line
    more, the warning about [e], at the end. *)
Theorem rmtree_failure_only_warns :
  forall (W : Type) (env : Env W) (rm_ok : string -> W -> W * (exn + unit))
         (job : Job) (w : W) (d : string) (e : exn),
    (forall p w0, snd (rm_ok p w0) = inr tt) ->
    In (ECall (CRmtree d) (inl e)) (run_trace env job w) ->
    only_a_warning_more env (with_rmtree env rm_ok) job w e.
Proof. intros W env rm_ok job w d e Hok Hin. now apply (rmtree_failure_compared env rm_ok job w d). Qed.

Lemma rmtree_failure_only_warns_witness :
  only_a_warning_more
    (with_rmtree Mock.env (fun _ w => (w, inl Mock.permission_denied)))
    (with_rmtree (with_rmtree Mock.env (fun _ w => (w, inl Mock.permission_denied)))
                 (rmtree Mock.env))
    Mock.job [] Mock.permission_denied.
Proof.
  apply (rmtree_failure_only_warns Mock.world
           (with_rmtree Mock.env (fun _ w => (w, inl Mock.permission_denied)))
           (rmtree Mock.env) Mock.job [] "/tmp/tmpa1" Mock.permission_denied).
  - intros p w0. reflexivity.
  - vm_compute. do 24 right. left. reflexivity.
Defined.


(** ** [create_github_repo] *)

Section CreateRepoFacts.
Context {W : Type} (env : Env W).

Lemma success_status_iff (response : Response) :
  success_status response = true <->
  status_code response = 200 \/ status_code response = 201.
Proof.
  unfold success_status. simpl. rewrite !orb_true_iff, !Z.eqb_eq.
  intuition discriminate.
Qed.

(** The call returns only on status 200 or 201, and then what it returns is
    the [html_url] field of the answer. *)
Lemma create_github_repo_returns (job : Job) (s s' : State W) (v : pyval) :
  create_github_repo env job s = (s', inr v) ->
  exists w' response dict,
    posted env job s = (w', inr response) /\
    success_status response = true /\
    json response = inr (PyDict dict) /\
    dict_get dict "html_url" = Some v.
Proof.
  unfold posted, request_headers, request_data, success_status.
  unfold create_github_repo, bind, extern, ret, raise.
  destruct (requests_post env _ _ _ (world s)) as [w' [e | response]];
    cbv beta iota; [discriminate |].
  destruct (existsb (Z.eqb (status_code response)) [200; 201]) eqn:Hstatus;
    cbn [negb]; cbv beta iota.
  - destruct (json response) as [e | []] eqn:Hjson; try discriminate.
    destruct (dict_get d "html_url") as [v' |] eqn:Hurl; [| discriminate].
    intros H. inversion H; subst. exists w', response, d. repeat split; assumption.
  - destruct (json response) as [e | []]; discriminate.
Qed.

(** On any other status, with a JSON object for an answer, the call raises
    [Exception] with the object's [message], or the raw body without one. *)
Lemma create_github_repo_error_message (job : Job) (s : State W) (w' : W)
      (response : Response) (dict : list (string * pyval)) :
  posted env job s = (w', inr response) ->
  success_status response = false ->
  json response = inr (PyDict dict) ->
  snd (create_github_repo env job s) =
  inl (Exception ("Failed to create GitHub repository: " ++
                  format_value env match dict_get dict "message" with
                                   | Some v => v
                                   | None => PyStr (text response)
                                   end)).
Proof.
  unfold posted, request_headers, request_data, success_status.
  intros Hpost Hstatus Hjson.
  unfold create_github_repo, bind, extern, ret, raise.
  rewrite Hpost. cbv beta iota.
  rewrite Hstatus, Hjson. reflexivity.
Qed.

(** With an answer that is not JSON, the call raises what [response.json()]
    raises, whatever the status: the raw body is not consulted. *)
Lemma create_github_repo_not_json (job : Job) (s : State W) (w' : W)
      (response : Response) (e : exn) :
  posted env job s = (w', inr response) ->
  json response = inl e ->
  snd (create_github_repo env job s) = inl e.
Proof.
  unfold posted, request_headers, request_data.
  intros Hpost Hjson.
  unfold create_github_repo, bind, extern, ret, raise.
  rewrite Hpost. cbv beta iota. rewrite Hjson.
  destruct (existsb (Z.eqb (status_code response)) [200; 201]); reflexivity.
Qed.

End CreateRepoFacts.

(** C3, at the input where the code departs from it. The platform (a
    gateway in front of it) answers 502 with an HTML page.  The spec has
    the job fail with the raw body, there being no structured message; the
    code fails with the error of [response.json()] instead. *)
Theorem create_github_repo_on_non_json_error_body :
  snd (create_github_repo Mock.gateway_env Mock.job (init_state [])) =
  inl Mock.json_decode_error /\
  outcome (run_trace Mock.gateway_env Mock.job []) =
  Some (false, "Expecting value: line 1 column 1 (char 0)") /\
  outcome (run_trace Mock.gateway_env Mock.job []) <>
  Some (false, "Failed to create GitHub repository: " ++ text Mock.bad_gateway).
Proof.
  split; [reflexivity | split; [reflexivity |]].
  vm_compute. discriminate.
Qed.

(** The same call with a JSON answer of status 422: the message is the
    platform's, after a fixed opening. *)
Example create_github_repo_on_json_error_body :
  outcome (run_trace Mock.taken_env Mock.job []) =
  Some (false, "Failed to create GitHub repository: Repository creation failed.").
Proof. reflexivity. Qed.

(** ** The submission form *)

Lemma truthy_false (s : string) : truthy s = false <-> s = "".
Proof. destruct s; simpl; split; intros H; try reflexivity; discriminate. Qed.

Lemma rejection_message_injective (a b : defect) :
  rejection_message a = rejection_message b -> a = b.
Proof. destruct a, b; simpl; intros H; try reflexivity; discriminate H. Qed.

(** C9. A form with any of the five defects is rejected on the spot: the
    slot shows one warning, the message of the first defect in the order
    archive path, archive file, repository name, username, token, and does
    nothing else, so no worker is started.  The five messages differ. *)
Theorem upload_to_github_rejects_defective_form :
  forall (W : Type) (env : Env W) (form : Form) (w : W) (d : defect),
    has_defect env form w d ->
    (exists first : defect,
        has_defect env form w first /\
        (forall other, has_defect env form w other ->
                       (defect_rank first <= defect_rank other)%nat) /\
        upload_to_github env form w =
        [MessageBoxWarning "Error" (rejection_message first)]) /\
    existsb starts_worker (upload_to_github env form w) = false /\
    (forall a b : defect, rejection_message a = rejection_message b -> a = b).
Proof.
  intros W env form w d Hd.
  assert (Hfirst :
            exists first : defect,
              has_defect env form w first /\
              (forall other, has_defect env form w other ->
                             (defect_rank first <= defect_rank other)%nat) /\
              upload_to_github env form w =
              [MessageBoxWarning "Error" (rejection_message first)]).
  { unfold upload_to_github.
    destruct (truthy (archive_path_edit form)) eqn:Ha; cbn [negb].
    2:{ exists NoArchive. apply truthy_false in Ha.
        split; [exact Ha | split; [intros other _; simpl; lia | reflexivity]]. }
    destruct (path_exists env (archive_path_edit form) w) eqn:Hp; cbn [negb].
    2:{ exists ArchiveMissing.
        split; [exact Hp | split; [| reflexivity]].
        intros [] Ho; simpl in *; try lia.
        apply truthy_false in Ho. congruence. }
    destruct (truthy (repo_name_edit form)) eqn:Hn; cbn [negb].
    2:{ exists NoRepoName. apply truthy_false in Hn.
        split; [exact Hn | split; [| reflexivity]].
        intros [] Ho; simpl in *; try lia.
        - apply truthy_false in Ho. congruence.
        - congruence. }
    destruct (truthy (github_username_edit form)) eqn:Hu; cbn [negb].
    2:{ exists NoUsername. apply truthy_false in Hu.
        split; [exact Hu | split; [| reflexivity]].
        intros [] Ho; simpl in *; try lia.
        - apply truthy_false in Ho. congruence.
        - congruence.
        - apply truthy_false in Ho. congruence. }
    destruct (truthy (github_token_edit form)) eqn:Hk; cbn [negb].
    2:{ exists NoToken. apply truthy_false in Hk.
        split; [exact Hk | split; [| reflexivity]].
        intros [] Ho; simpl in *; try lia.
        - apply truthy_false in Ho. congruence.
        - congruence.
        - apply truthy_false in Ho. congruence.
        - apply truthy_false in Ho. congruence. }
    exfalso. destruct d; simpl in Hd; try (apply truthy_false in Hd); congruence. }
  split; [exact Hfirst | split; [| exact rejection_message_injective]].
  destruct Hfirst as (first & _ & _ & Hacts). rewrite Hacts. reflexivity.
Qed.

Lemma upload_to_github_rejects_defective_form_witness :
  (exists first : defect,
      has_defect Mock.env Mock.form_without_token ["/home/user/project.zip"] first /\
      (forall other, has_defect Mock.env Mock.form_without_token ["/home/user/project.zip"] other ->
                     (defect_rank first <= defect_rank other)%nat) /\
      upload_to_github Mock.env Mock.form_without_token ["/home/user/project.zip"] =
      [MessageBoxWarning "Error" (rejection_message first)]) /\
  existsb starts_worker
    (upload_to_github Mock.env Mock.form_without_token ["/home/user/project.zip"]) = false /\
  (forall a b : defect, rejection_message a = rejection_message b -> a = b).
Proof.
  apply (upload_to_github_rejects_defective_form Mock.world Mock.env Mock.form_without_token
           ["/home/user/project.zip"] NoToken).
  reflexivity.
Defined.


(** * More about the worker *)

Section RunMore.
Context {W : Type} (env : Env W).

(** More of what every path through [run_upload] keeps. *)
Lemma run_upload_more_cases (job : Job) (w : W) :
  match run_upload env job (init_state w) with
  | (s1, r) =>
      post_follows_local_steps (trace s1) = true /\
      match r with
      | inl _ => interrupted_progress (trace s1) = true
      | inr _ => True
      end
  end.
Proof.
  run_all_paths.
  all: split; [vm_compute; reflexivity | try exact I; vm_compute; reflexivity].
Qed.

Lemma run_upload_directories (job : Job) (w : W) :
  match run_upload env job (init_state w) with
  | (s1, r) =>
      Forall (event_in_directory (temp_dir s1)) (trace s1) /\
      (forall d, temp_dir s1 = Some d -> In (ECall CMkdtemp (inr (RStr d))) (trace s1))
  end.
Proof.
  run_all_paths.
  all: split;
    [ cbn [app]; repeat (constructor; [exact I || reflexivity |]); constructor
    | intros dir Hd; try discriminate Hd; inversion Hd; subst; cbn [app];
      right; left; reflexivity ].
Qed.

Lemma cleanup_in_directory (s : State W) :
  exists w' cl,
    cleanup env s = (after_events s cl w', inr tt) /\
    Forall (event_in_directory (temp_dir s)) cl /\
    existsb is_post cl = false /\
    existsb is_complete cl = false /\
    progress_log cl = [].
Proof.
  destruct s as [w tr [d |]]; unfold_worker; unfold after_events; cbn [world trace temp_dir].
  - destruct (truthy d).
    + destruct (path_exists env d w).
      * destruct (rmtree env d w) as [w' [e | []]]; cbv beta iota.
        -- eexists w', [_; _; _]. rewrite <- !app_assoc.
           split; [reflexivity | split; [| repeat split]].
           repeat (constructor; [exact I || reflexivity |]); constructor.
        -- eexists w', [_; _]. rewrite <- !app_assoc.
           split; [reflexivity | split; [| repeat split]].
           repeat (constructor; [exact I || reflexivity |]); constructor.
      * eexists w, [_]. split; [reflexivity | split; [| repeat split]].
        repeat (constructor; [exact I || reflexivity |]); constructor.
    + exists w, []. rewrite app_nil_r. repeat split. constructor.
  - exists w, []. rewrite app_nil_r. repeat split. constructor.
Qed.

Lemma before_post_app (a b : list event) :
  existsb is_post b = false ->
  before_post (a ++ b)%list = before_post a.
Proof.
  intros Hb. induction a as [| e a IH]; simpl.
  - induction b as [| e b IHb]; simpl in *; [reflexivity |].
    apply orb_false_iff in Hb. destruct Hb as [He Hb].
    rewrite He. now rewrite (IHb Hb).
  - destruct (is_post e); [reflexivity |]. now rewrite IH.
Qed.

Lemma works_in_own_directory_of_Forall (td : option string) (tr : list event) :
  Forall (event_in_directory td) tr ->
  (forall d, td = Some d -> In (ECall CMkdtemp (inr (RStr d))) tr) ->
  works_in_own_directory tr.
Proof.
  intros Hall Hmk c r d Hin Hdir.
  rewrite Forall_forall in Hall. specialize (Hall _ Hin).
  simpl in Hall. rewrite Hdir in Hall. now apply Hmk.
Qed.

(** The whole trace of a run, cut where [run_upload] ends. *)
Lemma run_trace_split (job : Job) (w : W) :
  exists s1 r rest,
    run_upload env job (init_state w) = (s1, r) /\
    run_trace env job w = (trace s1 ++ rest)%list /\
    snd (run env job (init_state w)) = inr tt /\
    Forall (event_in_directory (temp_dir s1)) rest /\
    existsb is_post rest = false /\
    filter is_complete rest
    = match r with
      | inl e => [EComplete false (str_exn e)]
      | inr url => [EComplete true ("Successfully uploaded to " ++ format_value env url)]
      end /\
    progress_log rest = match r with inl _ => [] | inr _ => [100] end.
Proof.
  unfold run_trace. rewrite run_after_upload.
  destruct (run_upload env job (init_state w)) as [s1 [e | url]].
  - match goal with |- context [cleanup env ?s] =>
      destruct (cleanup_in_directory s) as (w' & cl & Hcl & Hdir & Hpost & Hcomp & Hprog) end.
    rewrite Hcl. cbn [fst snd after_events trace temp_dir] in *.
    exists s1, (inl e).
    eexists. split; [reflexivity |]. rewrite <- app_assoc. split; [reflexivity |].
    split; [reflexivity |]. cbn [app]. repeat split.
    + repeat (constructor; [exact I |]). exact Hdir.
    + cbn [existsb is_post orb]. exact Hpost.
    + cbn [filter is_complete].
      assert (Hnil : filter is_complete cl = []).
      { clear - Hcomp. induction cl as [| x cl IH]; simpl in *; [reflexivity |].
        apply orb_false_iff in Hcomp. destruct Hcomp as [Hx Hcl]. rewrite Hx. auto. }
      now rewrite Hnil.
    + cbn [progress_log]. exact Hprog.
  - cbv zeta.
    match goal with |- context [cleanup env ?s] =>
      destruct (cleanup_in_directory s) as (w' & cl & Hcl & Hdir & Hpost & Hcomp & Hprog) end.
    rewrite Hcl. cbn [fst snd after_events trace temp_dir] in *.
    exists s1, (inr url).
    eexists. split; [reflexivity |]. rewrite <- !app_assoc. split; [reflexivity |].
    split; [reflexivity |]. cbn [app]. repeat split.
    + constructor; [exact I |]. apply Forall_app. split; [exact Hdir |].
      repeat (constructor; [exact I |]). constructor.
    + cbn [existsb is_post orb]. rewrite existsb_app, Hpost. reflexivity.
    + cbn [filter is_complete]. rewrite filter_app.
      assert (Hnil : filter is_complete cl = []).
      { clear - Hcomp. induction cl as [| x cl IH]; simpl in *; [reflexivity |].
        apply orb_false_iff in Hcomp. destruct Hcomp as [Hx Hcl]. rewrite Hx. auto. }
      rewrite Hnil. reflexivity.
    + cbn [progress_log]. rewrite progress_log_app, Hprog. reflexivity.
Qed.

Lemma filter_none_of_existsb {A} (f : A -> bool) (l : list A) :
  existsb f l = false -> filter f l = [].
Proof.
  induction l as [| x l IH]; simpl; intros H; [reflexivity |].
  apply orb_false_iff in H. destruct H as [Hx Hl]. rewrite Hx. auto.
Qed.

End RunMore.

(** X1. [run] catches whatever its steps raise and emits the
    [operation_complete] signal exactly once, on every path. *)
Theorem run_reports_exactly_once :
  forall (W : Type) (env : Env W) (job : Job) (w : W),
    snd (run env job (init_state w)) = inr tt /\
    length (filter is_complete (run_trace env job w)) = 1%nat.
Proof.
  intros W env job w.
  destruct (run_trace_split env job w)
    as (s1 & r & rest & Hup & Htr & Hret & _ & _ & Hcomp & _).
  split; [exact Hret |].
  rewrite Htr, filter_app, Hcomp.
  pose proof (run_upload_cases env job w) as Hcases. rewrite Hup in Hcases.
  destruct r as [e | url].
  - destruct (interrupted_upload_facts _ Hcases) as (Hnc & _).
    rewrite (filter_none_of_existsb _ _ Hnc). reflexivity.
  - destruct Hcases as (d & rt & repo & resp & dict & Hs1 & _).
    rewrite Hs1. destruct rt; reflexivity.
Qed.

(** X2. A run that fails never shows more than 70 per cent: its progress
    values are an initial stretch of 10, 30, 40, 50, 60, 70 (90 and 100 are
    only emitted once the push has succeeded). *)
Theorem progress_of_failed_run :
  forall (W : Type) (env : Env W) (job : Job) (w : W) (m : string),
    outcome (run_trace env job w) = Some (false, m) ->
    (exists k, (k <= 6)%nat /\
               progress_log (run_trace env job w) = firstn k [10; 30; 40; 50; 60; 70]) /\
    Forall (fun n => 10 <= n <= 70) (progress_log (run_trace env job w)).
Proof.
  intros W env job w m Hout.
  destruct (run_trace_split env job w)
    as (s1 & r & rest & Hup & Htr & _ & _ & _ & Hcomp & Hprog).
  pose proof (run_upload_cases env job w) as Hcases. rewrite Hup in Hcases.
  pose proof (run_upload_more_cases env job w) as Hmore. rewrite Hup in Hmore.
  destruct r as [e | url].
  - destruct Hmore as [_ Hint].
    assert (Hk : exists k, (k <= 6)%nat /\
                           progress_log (trace s1) = firstn k [10; 30; 40; 50; 60; 70]).
    { unfold interrupted_progress in Hint. apply existsb_exists in Hint.
      destruct Hint as (k & Hin & Heq). exists k. split; [simpl in Hin; lia |].
      clear - Heq. revert Heq. generalize (firstn k [10; 30; 40; 50; 60; 70]).
      induction (progress_log (trace s1)) as [| x l IH]; intros [| y l']; simpl;
        intros H; try reflexivity; try discriminate.
      apply andb_prop in H. destruct H as [Hxy Hl]. apply Z.eqb_eq in Hxy.
      subst. f_equal. now apply IH. }
    rewrite Htr, progress_log_app, Hprog, app_nil_r.
    split; [exact Hk |].
    destruct Hk as (k & Hk & Heq). rewrite Heq.
    assert (Hks : (k = 0 \/ k = 1 \/ k = 2 \/ k = 3 \/ k = 4 \/ k = 5 \/ k = 6)%nat) by lia.
    destruct Hks as [-> | [-> | [-> | [-> | [-> | [-> | ->]]]]]]; simpl;
      repeat (constructor; [lia |]); constructor.
  - exfalso.
    destruct Hcases as (d & rt & repo & resp & dict & Hs1 & _).
    rewrite Htr in Hout.
    assert (Hnone : existsb is_complete (trace s1) = false)
      by (rewrite Hs1; destruct rt; reflexivity).
    rewrite (outcome_app _ _ Hnone) in Hout.
    assert (Hrest : forall l, filter is_complete l = [EComplete true
                       ("Successfully uploaded to " ++ format_value env url)] ->
                     outcome l <> Some (false, m)).
    { clear. induction l as [| x l IH]; simpl; [discriminate |].
      destruct x; simpl; try exact IH.
      intros H. inversion H. discriminate. }
    exact (Hrest rest Hcomp Hout).
Qed.

Lemma progress_of_failed_run_witness :
  (exists k, (k <= 6)%nat /\
             progress_log (run_trace Mock.env Mock.rar_job [])
             = firstn k [10; 30; 40; 50; 60; 70]) /\
  Forall (fun n => 10 <= n <= 70) (progress_log (run_trace Mock.env Mock.rar_job [])).
Proof.
  apply (progress_of_failed_run Mock.world Mock.env Mock.rar_job []
           "Unsupported archive format: .rar").
  reflexivity.
Defined.

(** X3. The worker only ever works in the directory it allocated: the
    extraction target, the repository root, the existence test and the
    directory removed by [rmtree] are all the path [mkdtemp] returned in
    this run. *)
Theorem run_works_in_own_directory :
  forall (W : Type) (env : Env W) (job : Job) (w : W) (c : call) (r : exn + retval)
         (d : string),
    In (ECall c r) (run_trace env job w) ->
    directory_of_call c = Some d ->
    In (ECall CMkdtemp (inr (RStr d))) (run_trace env job w).
Proof.
  intros W env job w.
  destruct (run_trace_split env job w)
    as (s1 & r & rest & Hup & Htr & _ & Hrest & _).
  pose proof (run_upload_directories env job w) as Hdirs. rewrite Hup in Hdirs.
  destruct Hdirs as [Hall Hmk].
  apply (works_in_own_directory_of_Forall (temp_dir s1)).
  - rewrite Htr. apply Forall_app. split; assumption.
  - intros d Hd. rewrite Htr. apply in_or_app. left. now apply Hmk.
Qed.

Lemma run_works_in_own_directory_witness :
  In (ECall CMkdtemp (inr (RStr "/tmp/tmpa1"))) (run_trace Mock.env Mock.job []).
Proof.
  apply (run_works_in_own_directory Mock.world Mock.env Mock.job []
           (CRmtree "/tmp/tmpa1") (inr RNone) "/tmp/tmpa1").
  - vm_compute. do 24 right. left. reflexivity.
  - reflexivity.
Defined.

(** X4. The platform is not contacted before the local work is done: when
    [requests.post] is called, [mkdtemp], the extraction, [Repo.init],
    [git add] and [git commit] have each been called once and have
    returned normally, in this order. *)
Theorem post_only_after_local_steps :
  forall (W : Type) (env : Env W) (job : Job) (w : W) (pre : list event),
    before_post (run_trace env job w) = Some pre ->
    succeeded_operations pre = [OpMkdtemp; OpExtractall; OpRepoInit; OpGitAdd; OpGitCommit] /\
    operations pre = [OpMkdtemp; OpExtractall; OpRepoInit; OpGitAdd; OpGitCommit].
Proof.
  intros W env job w pre Hpre.
  destruct (run_trace_split env job w)
    as (s1 & r & rest & Hup & Htr & _ & _ & Hnopost & _).
  pose proof (run_upload_more_cases env job w) as Hmore. rewrite Hup in Hmore.
  destruct Hmore as [Hpost _].
  rewrite Htr, (before_post_app _ _ Hnopost) in Hpre.
  unfold post_follows_local_steps in Hpost. rewrite Hpre in Hpost.
  assert (Heq : forall a b, operations_eqb a b = true -> a = b).
  { induction a as [| x a IH]; intros [| y b]; simpl; intros H;
      try reflexivity; try discriminate.
    apply andb_prop in H. destruct H as [Hxy Hab].
    apply operation_eqb_eq in Hxy. subst. f_equal. now apply IH. }
  apply andb_prop in Hpost. destruct Hpost as [Hok Hall].
  split; now apply Heq.
Qed.

Lemma post_only_after_local_steps_witness :
  succeeded_operations
    (match before_post (run_trace Mock.env Mock.job []) with Some pre => pre | None => [] end)
  = [OpMkdtemp; OpExtractall; OpRepoInit; OpGitAdd; OpGitCommit] /\
  operations
    (match before_post (run_trace Mock.env Mock.job []) with Some pre => pre | None => [] end)
  = [OpMkdtemp; OpExtractall; OpRepoInit; OpGitAdd; OpGitCommit].
Proof.
  apply (post_only_after_local_steps Mock.world Mock.env Mock.job []).
  reflexivity.
Defined.

(** X5. The account name plays no part in the upload: two jobs that differ
    only in [github_username] give the same run, event for event.  The
    request is authorised by the token alone. *)
Theorem run_ignores_github_username :
  forall (W : Type) (env : Env W) (job : Job) (u : string) (s : State W),
    run env (with_github_username u job) s = run env job s.
Proof. intros W env [a n g t p] u s. reflexivity. Qed.

(** X6. [create_github_repo] returns only when the status is 200 or 201
    and the answer is a JSON object with an [html_url]; what it returns is
    that field, and it has made exactly one call, the POST. *)
Theorem create_github_repo_returns_html_url :
  forall (W : Type) (env : Env W) (job : Job) (s s' : State W) (v : pyval),
    create_github_repo env job s = (s', inr v) ->
    exists w' response dict,
      posted env job s = (w', inr response) /\
      (status_code response = 200 \/ status_code response = 201) /\
      json response = inr (PyDict dict) /\
      dict_get dict "html_url" = Some v /\
      s' = after_events s
             [ECall (CRequestsPost "https://api.github.com/user/repos" (request_headers job)
                                   (json_dumps env (request_data job)))
                    (inr (RResponse response))] w'.
Proof.
  intros W env job s s' v H.
  destruct (create_github_repo_returns env job s s' v H)
    as (w' & response & dict & Hpost & Hstatus & Hjson & Hurl).
  exists w', response, dict. repeat split; try assumption.
  - now apply success_status_iff.
  - revert H. unfold create_github_repo, bind, extern, ret, raise.
    unfold posted, request_headers, request_data in Hpost. rewrite Hpost.
    cbv beta iota. unfold success_status in Hstatus. rewrite Hstatus, Hjson, Hurl.
    cbn [negb]. intros H. inversion H. reflexivity.
Qed.

Lemma create_github_repo_returns_html_url_witness :
  exists w' response dict,
    posted Mock.env Mock.job (init_state []) = (w', inr response) /\
    (status_code response = 200 \/ status_code response = 201) /\
    json response = inr (PyDict dict) /\
    dict_get dict "html_url" = Some (PyStr "https://example.test/user/myproj") /\
    fst (create_github_repo Mock.env Mock.job (init_state [])) =
    after_events (init_state [])
      [ECall (CRequestsPost "https://api.github.com/user/repos" (request_headers Mock.job)
                            (json_dumps Mock.env (request_data Mock.job)))
             (inr (RResponse response))] w'.
Proof.
  apply (create_github_repo_returns_html_url Mock.world Mock.env Mock.job (init_state [])).
  reflexivity.
Defined.

(** X7. A 200 or 201 answer that is a JSON object without an [html_url]
    makes [create_github_repo] raise [KeyError('html_url')], whose text is
    the quoted key: the job fails with the message ['html_url']. *)
Theorem create_github_repo_missing_html_url :
  forall (W : Type) (env : Env W) (job : Job) (s : State W) (w' : W)
         (response : Response) (dict : list (string * pyval)),
    posted env job s = (w', inr response) ->
    success_status response = true ->
    json response = inr (PyDict dict) ->
    dict_get dict "html_url" = None ->
    snd (create_github_repo env job s) = inl (KeyError "html_url") /\
    str_exn (KeyError "html_url") = "'html_url'".
Proof.
  intros W env job s w' response dict Hpost Hstatus Hjson Hurl.
  split; [| reflexivity].
  unfold posted, request_headers, request_data, success_status in *.
  unfold create_github_repo, bind, extern, ret, raise.
  rewrite Hpost. cbv beta iota. rewrite Hstatus, Hjson, Hurl. reflexivity.
Qed.

Lemma create_github_repo_missing_html_url_witness :
  snd (create_github_repo MockMore.silent_env Mock.job (init_state [])) =
  inl (KeyError "html_url") /\
  str_exn (KeyError "html_url") = "'html_url'".
Proof.
  apply (create_github_repo_missing_html_url Mock.world MockMore.silent_env Mock.job
           (init_state []) [] MockMore.created_without_url [("id", PyInt 1)]);
    reflexivity.
Defined.

(** X8. On a status other than 200 and 201, with a JSON object for an
    answer, [create_github_repo] raises [Exception] with the text
    "Failed to create GitHub repository: " followed by the object's
    [message], or by the raw body when the object has no [message]. *)
Theorem create_github_repo_reports_platform_message :
  forall (W : Type) (env : Env W) (job : Job) (s : State W) (w' : W)
         (response : Response) (dict : list (string * pyval)),
    posted env job s = (w', inr response) ->
    success_status response = false ->
    json response = inr (PyDict dict) ->
    snd (create_github_repo env job s) =
    inl (Exception ("Failed to create GitHub repository: " ++
                    match dict_get dict "message" with
                    | Some v => format_value env v
                    | None => text response
                    end)).
Proof.
  intros W env job s w' response dict Hpost Hstatus Hjson.
  rewrite (create_github_repo_error_message env job s w' response dict Hpost Hstatus Hjson).
  destruct (dict_get dict "message"); reflexivity.
Qed.

Lemma create_github_repo_reports_platform_message_witness :
  snd (create_github_repo Mock.taken_env Mock.job (init_state [])) =
  inl (Exception "Failed to create GitHub repository: Repository creation failed.").
Proof.
  apply (create_github_repo_reports_platform_message Mock.world Mock.taken_env Mock.job
           (init_state []) [] Mock.unprocessable
           [("message", PyStr "Repository creation failed.")]);
    reflexivity.
Defined.


(** * More about paths *)

Module PathFacts.
Import PyStr OsPath.

Lemma rfind_from_last_index (c : ascii) (s : string) (i last : Z) :
  rfind_from c s i last =
  match last_index c s with
  | Some k => i + Z.of_nat k
  | None => last
  end.
Proof.
  revert i last. induction s as [| a s IH]; intros i last; simpl; [reflexivity |].
  rewrite IH. destruct (last_index c s) as [k |].
  - lia.
  - destruct (Ascii.eqb a c); [lia | reflexivity].
Qed.

Lemma rfind_last_index (c : ascii) (s : string) :
  rfind c s = match last_index c s with Some k => Z.of_nat k | None => -1 end.
Proof. unfold rfind. rewrite rfind_from_last_index. destruct (last_index c s); lia. Qed.

Lemma last_index_none (c : ascii) (s : string) :
  last_index c s = None <-> contains c s = false.
Proof.
  induction s as [| a s IH]; simpl; [tauto |].
  destruct (last_index c s) as [k |].
  - split; [discriminate |]. intros H. apply orb_false_iff in H.
    destruct H as [_ H]. apply IH in H. discriminate H.
  - destruct (Ascii.eqb a c); simpl.
    + split; discriminate.
    + split; [intros _; now apply IH | reflexivity].
Qed.

Lemma last_index_lt (c : ascii) (s : string) (k : nat) :
  last_index c s = Some k -> (k < String.length s)%nat.
Proof.
  revert k. induction s as [| a s IH]; intros k; simpl; [discriminate |].
  destruct (last_index c s) as [j |].
  - intros H. inversion H. specialize (IH j eq_refl). lia.
  - destruct (Ascii.eqb a c); [| discriminate]. intros H. inversion H. lia.
Qed.

Lemma append_empty_r (s : string) : (s ++ "")%string = s.
Proof. induction s as [| a s IH]; simpl; [reflexivity | now rewrite IH]. Qed.

Lemma substring_all (s : string) : substring 0 (String.length s) s = s.
Proof. induction s as [| a s IH]; simpl; [reflexivity | now rewrite IH]. Qed.

Lemma substring_split (s : string) (k : nat) :
  (k <= String.length s)%nat ->
  (substring 0 k s ++ substring k (String.length s - k) s)%string = s.
Proof.
  revert k. induction s as [| a s IH]; intros k Hk; simpl in *.
  - destruct k; reflexivity.
  - destruct k as [| k]; simpl.
    + now rewrite substring_all.
    + rewrite IH by lia. reflexivity.
Qed.

Lemma contains_substring (c : ascii) (s : string) (n m : nat) :
  contains c s = false -> contains c (substring n m s) = false.
Proof.
  revert n m. induction s as [| a s IH]; intros n m H; simpl in *.
  - destruct n, m; reflexivity.
  - apply orb_false_iff in H. destruct H as [Ha Hs].
    destruct n as [| n]; destruct m as [| m]; simpl; try reflexivity.
    + rewrite Ha. simpl. now apply IH.
    + now apply IH.
    + now apply IH.
Qed.

Lemma contains_app (c : ascii) (a b : string) :
  contains c (a ++ b)%string = contains c a || contains c b.
Proof. induction a as [| x a IH]; simpl; [reflexivity |]. now rewrite IH, orb_assoc. Qed.

(** Nothing after the last [c] is a [c]. *)
Lemma contains_after_last (c : ascii) (s : string) (k : nat) :
  last_index c s = Some k ->
  contains c (substring (S k) (String.length s - S k) s) = false.
Proof.
  revert k. induction s as [| a s IH]; intros k; simpl; [discriminate |].
  destruct (last_index c s) as [j |] eqn:Hj.
  - intros H. inversion H; subst k. now apply IH.
  - destruct (Ascii.eqb a c); [| discriminate]. intros H. inversion H; subst k.
    rewrite Nat.sub_0_r, substring_all. now apply last_index_none.
Qed.

(** The character at the last [c] is [c]. *)
Lemma substring_from_last (c : ascii) (s : string) (k : nat) :
  last_index c s = Some k ->
  exists rest, substring k (String.length s - k) s = String c rest.
Proof.
  revert k. induction s as [| a s IH]; intros k; simpl; [discriminate |].
  destruct (last_index c s) as [j |] eqn:Hj.
  - intros H. inversion H; subst k. now apply IH.
  - destruct (Ascii.eqb a c) eqn:Hac; [| discriminate]. intros H. inversion H; subst k.
    apply Ascii.eqb_eq in Hac. subst a. rewrite substring_all. eauto.
Qed.

(** [posixpath.basename]: the path is a directory part followed by the
    base name, and the base name has no slash. *)
Lemma basename_spec (p : string) :
  exists dir, p = (dir ++ PosixPath.basename p)%string /\
              contains "/"%char (PosixPath.basename p) = false.
Proof.
  unfold PosixPath.basename, slice_from. rewrite rfind_last_index.
  destruct (last_index "/"%char p) as [k |] eqn:Hk.
  - replace (Z.to_nat (Z.of_nat k + 1)) with (S k) by lia.
    exists (substring 0 (S k) p). split.
    + symmetry. apply substring_split. apply last_index_lt in Hk. lia.
    + now apply contains_after_last.
  - exists ""%string. simpl. rewrite Nat.sub_0_r, substring_all.
    split; [reflexivity | now apply last_index_none].
Qed.

(** [splitext] loses nothing, and the extension is empty or starts with
    a dot. *)
Lemma _splitext_spec (p : string) (sep : ascii) (altsep : option ascii) :
  let (root, ext) := _splitext p sep altsep "."%char in
  p = (root ++ ext)%string /\
  (ext = ""%string \/ exists rest, ext = String "."%char rest) /\
  (forall c, contains c p = false -> contains c root = false /\ contains c ext = false).
Proof.
  unfold _splitext.
  set (sepIndex := match altsep with
                   | Some a => Z.max (rfind sep p) (rfind a p)
                   | None => rfind sep p
                   end).
  assert (Hsep : -1 <= sepIndex).
  { unfold sepIndex. rewrite rfind_last_index.
    destruct altsep as [a |]; [rewrite (rfind_last_index a) |];
      repeat match goal with |- context [last_index ?c ?s] => destruct (last_index c s) end;
      lia. }
  rewrite (rfind_last_index "."%char).
  destruct (last_index "."%char p) as [k |] eqn:Hk.
  - match goal with |- context [if ?b then _ else _] => destruct b end.
    + unfold slice_to, slice_from. rewrite Nat2Z.id.
      split; [| split].
      * symmetry. apply substring_split. apply last_index_lt in Hk. lia.
      * right. now apply substring_from_last.
      * intros c Hc. split; now apply contains_substring.
    + split; [now rewrite append_empty_r | split; [now left |]].
      intros c Hc. split; [assumption | reflexivity].
  - replace (-1 >? sepIndex) with false by (symmetry; rewrite Z.gtb_ltb; apply Z.ltb_ge; lia).
    simpl. split; [now rewrite append_empty_r | split; [now left |]].
    intros c Hc. split; [assumption | reflexivity].
Qed.

Lemma _splitext_no_dot (p : string) (sep : ascii) (altsep : option ascii) :
  contains "."%char p = false -> _splitext p sep altsep "."%char = (p, ""%string).
Proof.
  intros H. apply last_index_none in H. unfold _splitext.
  set (sepIndex := match altsep with
                   | Some a => Z.max (rfind sep p) (rfind a p)
                   | None => rfind sep p
                   end).
  assert (Hsep : -1 <= sepIndex).
  { unfold sepIndex. rewrite rfind_last_index.
    destruct altsep as [a |]; [rewrite (rfind_last_index a) |];
      repeat match goal with |- context [last_index ?c ?s] => destruct (last_index c s) end;
      lia. }
  rewrite (rfind_last_index "."%char), H.
  replace (-1 >? sepIndex) with false by (symmetry; rewrite Z.gtb_ltb; apply Z.ltb_ge; lia).
  reflexivity.
Qed.

Lemma splitext_no_dot (os : flavour) (p : string) :
  contains "."%char p = false -> splitext os p = (p, ""%string).
Proof. intros H. destruct os; unfold splitext; now apply _splitext_no_dot. Qed.

End PathFacts.


(** X9. An archive whose path has no dot at all has no extension, and
    [extract_archive] rejects it whatever it contains: it raises
    [ValueError] with the text "Unsupported archive format: " (the name
    of the extension being empty) and calls no library routine. *)
Theorem extract_archive_without_extension :
  forall (W : Type) (env : Env W) (archive_path extract_to : string) (s : State W),
    contains "."%char archive_path = false ->
    extract_archive env archive_path extract_to s =
    (s, inl (ValueError "Unsupported archive format: ")).
Proof.
  intros W env p d s H.
  assert (Hext : file_ext env p = "").
  { unfold file_ext. now rewrite (PathFacts.splitext_no_dot _ _ H). }
  unfold extract_archive. rewrite Hext. reflexivity.
Qed.

Lemma extract_archive_without_extension_witness :
  extract_archive Mock.env "/home/user/archive" "/tmp/tmpa1" (init_state []) =
  (init_state [], inl (ValueError "Unsupported archive format: ")).
Proof.
  apply (extract_archive_without_extension Mock.world Mock.env "/home/user/archive"
           "/tmp/tmpa1" (init_state [])).
  reflexivity.
Defined.

(** * The window *)

Section WindowFacts.

Lemma settings_value_remove (key default : string) (st : Settings) :
  settings_value (settings_remove key st) key default = default.
Proof.
  induction st as [| [k v] st IH]; simpl; [reflexivity |].
  destruct (String.eqb k key) eqn:Hk; simpl; [exact IH |].
  rewrite Hk. exact IH.
Qed.

Lemma settings_value_setValue (key value default : string) (st : Settings) :
  settings_value (settings_setValue key value st) key default = value.
Proof. unfold settings_setValue. simpl. now rewrite String.eqb_refl. Qed.

Lemma new_window_username (st : Settings) :
  github_username_edit (form (new_window st)) = settings_value st "github_username" "".
Proof.
  unfold new_window, load_settings. cbn [settings init_ui].
  destruct (settings_value st "github_username" "") as [| a u] eqn:Hv; reflexivity.
Qed.

Lemma truthy_true (s : string) : truthy s = true <-> s <> "".
Proof. destruct s; simpl; split; intros H; try reflexivity; congruence. Qed.

Lemma upload_to_github_accepts {W} (env : Env W) (f : Form) (w : W) :
  (forall d, ~ has_defect env f w d) ->
  upload_to_github env f w =
  [ if save_username_checkbox f
    then SettingsSetValue "github_username" (github_username_edit f)
    else SettingsRemove "github_username";
    StatusTextClear;
    ProgressBarSetValue 0;
    SetUiEnabled false;
    WorkerStart (job_of_form f) ].
Proof.
  intros Hok. unfold upload_to_github.
  assert (Ha : truthy (archive_path_edit f) = true)
    by (apply truthy_true; exact (Hok NoArchive)).
  assert (Hp : path_exists env (archive_path_edit f) w = true)
    by (apply not_false_is_true; exact (Hok ArchiveMissing)).
  assert (Hn : truthy (repo_name_edit f) = true)
    by (apply truthy_true; exact (Hok NoRepoName)).
  assert (Hu : truthy (github_username_edit f) = true)
    by (apply truthy_true; exact (Hok NoUsername)).
  assert (Hk : truthy (github_token_edit f) = true)
    by (apply truthy_true; exact (Hok NoToken)).
  rewrite Ha, Hp, Hn, Hu, Hk. reflexivity.
Qed.

Lemma upload_to_github_refuses {W} (env : Env W) (f : Form) (w : W) (d : defect) :
  has_defect env f w d ->
  exists first, has_defect env f w first /\
                upload_to_github env f w = [MessageBoxWarning "Error" (rejection_message first)].
Proof.
  intros Hd. unfold upload_to_github.
  destruct (truthy (archive_path_edit f)) eqn:Ha; cbn [negb];
    [| exists NoArchive; split; [now apply truthy_false | reflexivity]].
  destruct (path_exists env (archive_path_edit f) w) eqn:Hp; cbn [negb];
    [| exists ArchiveMissing; split; [exact Hp | reflexivity]].
  destruct (truthy (repo_name_edit f)) eqn:Hn; cbn [negb];
    [| exists NoRepoName; split; [now apply truthy_false | reflexivity]].
  destruct (truthy (github_username_edit f)) eqn:Hu; cbn [negb];
    [| exists NoUsername; split; [now apply truthy_false | reflexivity]].
  destruct (truthy (github_token_edit f)) eqn:Hk; cbn [negb];
    [| exists NoToken; split; [now apply truthy_false | reflexivity]].
  exfalso. destruct d; simpl in Hd; try (apply truthy_false in Hd); congruence.
Qed.

(** What the worker's signals, delivered in order, do to the window. *)
Lemma deliver_all_app (a b : list event) (win : Window) :
  deliver_all (a ++ b) win = deliver_all b (deliver_all a win).
Proof. unfold deliver_all. apply fold_left_app. Qed.

Lemma deliver_all_frame (tr : list event) (win : Window) :
  form (deliver_all tr win) = form win /\
  settings (deliver_all tr win) = settings win /\
  worker (deliver_all tr win) = worker win /\
  drop_highlighted (deliver_all tr win) = drop_highlighted win.
Proof.
  revert win. induction tr as [| e tr IH]; intros win; [repeat split |].
  change (deliver_all (e :: tr) win) with (deliver_all tr (deliver e win)).
  destruct (IH (deliver e win)) as (Hf & Hs & Hw & Hd).
  rewrite Hf, Hs, Hw, Hd.
  destruct e as [m | n | [] m | c r]; simpl; unfold progress_bar_setValue;
    try destruct ((0 <=? n) && (n <=? 100)); repeat split.
Qed.

Lemma deliver_all_status_text (tr : list event) (win : Window) :
  status_text (deliver_all tr win) = (status_text win ++ status_log tr)%list.
Proof.
  revert win. induction tr as [| e tr IH]; intros win; [simpl; now rewrite app_nil_r |].
  change (deliver_all (e :: tr) win) with (deliver_all tr (deliver e win)).
  rewrite IH.
  destruct e as [m | n | [] m | c r]; simpl; unfold progress_bar_setValue;
    try destruct ((0 <=? n) && (n <=? 100)); simpl;
    try reflexivity.
  now rewrite <- app_assoc.
Qed.

Lemma deliver_all_message_boxes (tr : list event) (win : Window) :
  message_boxes (deliver_all tr win) = (message_boxes win ++ result_boxes tr)%list.
Proof.
  revert win. induction tr as [| e tr IH]; intros win; [simpl; now rewrite app_nil_r |].
  change (deliver_all (e :: tr) win) with (deliver_all tr (deliver e win)).
  rewrite IH.
  destruct e as [m | n | [] m | c r]; simpl; unfold progress_bar_setValue;
    try destruct ((0 <=? n) && (n <=? 100)); simpl;
    try reflexivity; now rewrite <- app_assoc.
Qed.

Lemma deliver_all_controls_enabled (tr : list event) (win : Window) :
  controls_enabled (deliver_all tr win) =
  if existsb is_complete tr then true else controls_enabled win.
Proof.
  revert win. induction tr as [| e tr IH]; intros win; [reflexivity |].
  change (deliver_all (e :: tr) win) with (deliver_all tr (deliver e win)).
  rewrite IH.
  destruct e as [m | n | [] m | c r]; simpl; unfold progress_bar_setValue;
    try destruct ((0 <=? n) && (n <=? 100)); simpl;
    try reflexivity; destruct (existsb is_complete tr); reflexivity.
Qed.

Lemma deliver_all_progress_bar (tr : list event) (win : Window) :
  Forall (fun n => 0 <= n <= 100) (progress_log tr) ->
  progress_bar (deliver_all tr win) = last (progress_log tr) (progress_bar win).
Proof.
  revert win. induction tr as [| e tr IH]; intros win Hall; [reflexivity |].
  change (deliver_all (e :: tr) win) with (deliver_all tr (deliver e win)).
  destruct e as [m | n | ok m | c r]; simpl in Hall |- *.
  - now rewrite IH.
  - inversion Hall as [| x l Hn Hl]; subst.
    rewrite (IH _ Hl). unfold progress_bar_setValue.
    replace ((0 <=? n) && (n <=? 100)) with true
      by (symmetry; apply andb_true_iff; split; apply Z.leb_le; lia).
    cbn [progress_bar].
    destruct (progress_log tr) as [| y l'] eqn:Hlog; [reflexivity |].
    clear. revert y. induction l' as [| z l' IHl]; intros y; [reflexivity |].
    exact (IHl z).
  - rewrite (IH _ Hall). destruct ok; reflexivity.
  - now rewrite IH.
Qed.

Lemma result_boxes_app (a b : list event) :
  result_boxes (a ++ b) = (result_boxes a ++ result_boxes b)%list.
Proof.
  induction a as [| e a IH]; simpl; [reflexivity |].
  destruct e; simpl; now rewrite IH.
Qed.

Lemma result_boxes_none (tr : list event) :
  existsb is_complete tr = false -> result_boxes tr = [].
Proof.
  induction tr as [| e tr IH]; simpl; intros H; [reflexivity |].
  apply orb_false_iff in H. destruct H as [He Htr].
  destruct e; simpl in *; try discriminate; now apply IH.
Qed.

End WindowFacts.

Lemma complete_signals (l : list event) (ok : bool) (m : string) :
  filter is_complete l = [EComplete ok m] ->
  outcome l = Some (ok, m) /\
  result_boxes l = [result_box (ok, m)] /\
  existsb is_complete l = true.
Proof.
  induction l as [| x l IH]; simpl; [discriminate |].
  destruct x as [s | n | ok' m' | c r]; simpl; try exact IH.
  intros H. inversion H as [[Hok Hm Hl]]. repeat split.
  f_equal. apply result_boxes_none.
  clear - Hl. induction l as [| x l IH]; simpl in *; [reflexivity |].
  destruct (is_complete x); [discriminate | now apply IH].
Qed.

Lemma progress_eqb_eq (a b : list Z) : progress_eqb a b = true -> a = b.
Proof.
  revert b. induction a as [| x a IH]; intros [| y b]; simpl; intros H;
    try reflexivity; try discriminate.
  apply andb_prop in H. destruct H as [Hxy Hab]. apply Z.eqb_eq in Hxy.
  subst. f_equal. now apply IH.
Qed.

(** What the window needs to know of a run: one outcome, reported once,
    and progress values the bar accepts. *)
Lemma run_trace_for_window {W} (env : Env W) (job : Job) (w : W) :
  exists o,
    outcome (run_trace env job w) = Some o /\
    result_boxes (run_trace env job w) = [result_box o] /\
    existsb is_complete (run_trace env job w) = true /\
    Forall (fun n => 0 <= n <= 100) (progress_log (run_trace env job w)).
Proof.
  destruct (run_trace_split env job w)
    as (s1 & r & rest & Hup & Htr & _ & _ & _ & Hcomp & Hprog).
  pose proof (run_upload_cases env job w) as Hcases.
  pose proof (run_upload_more_cases env job w) as Hmore.
  rewrite Hup in Hcases, Hmore. destruct Hmore as [_ Hmore].
  assert (Hs1 : existsb is_complete (trace s1) = false /\
                Forall (fun n => 0 <= n <= 100) (progress_log (trace s1))).
  { destruct r as [e | url].
    - destruct (interrupted_upload_facts _ Hcases) as (Hnc & _). split; [exact Hnc |].
      unfold interrupted_progress in Hmore. apply existsb_exists in Hmore.
      destruct Hmore as (k & Hin & Heq). apply progress_eqb_eq in Heq. rewrite Heq.
      simpl in Hin.
      destruct Hin as [<- | [<- | [<- | [<- | [<- | [<- | [<- | []]]]]]]]; simpl;
        repeat (constructor; [lia |]); constructor.
    - destruct Hcases as (d & rt & repo & resp & dict & Hs1 & _). rewrite Hs1.
      destruct rt; (split; [reflexivity |]); simpl;
        repeat (constructor; [lia |]); constructor. }
  destruct Hs1 as [Hnc Hrange].
  assert (Hone : exists ok m, filter is_complete rest = [EComplete ok m])
    by (destruct r; eauto).
  destruct Hone as (ok & m & Hone).
  destruct (complete_signals rest ok m Hone) as (Hout & Hbox & Hex).
  exists (ok, m). rewrite Htr.
  rewrite (outcome_app _ _ Hnc), result_boxes_app, (result_boxes_none _ Hnc).
  rewrite existsb_app, Hnc, progress_log_app, Hprog.
  repeat split; try assumption.
  apply Forall_app. split; [exact Hrange |].
  destruct r; repeat (constructor; [lia |]); constructor.
Qed.


Lemma click_upload_accepted {W} (env : Env W) (w : W) (win : Window) :
  (forall d, ~ has_defect env (form win) w d) ->
  click_upload env w win =
  with_worker (Some (job_of_form (form win)))
    (set_ui_enabled false
       (progress_bar_setValue 0
          (with_status_text []
             (with_settings
                (if save_username_checkbox (form win)
                 then settings_setValue "github_username" (github_username_edit (form win))
                                        (settings win)
                 else settings_remove "github_username" (settings win))
                win)))).
Proof.
  intros Hok. unfold click_upload. rewrite (upload_to_github_accepts env _ w Hok).
  destruct (save_username_checkbox (form win)); reflexivity.
Qed.

Lemma click_upload_starts_worker_facts {W} (env : Env W) (w : W) (win : Window) :
  (forall d, ~ has_defect env (form win) w d) ->
  status_text (click_upload env w win) = [] /\
  progress_bar (click_upload env w win) = 0 /\
  message_boxes (click_upload env w win) = message_boxes win /\
  form (click_upload env w win) = form win.
Proof.
  intros Hok. rewrite (click_upload_accepted env w win Hok). repeat split.
Qed.

(** ** The name [set_archive_path] suggests *)

Module StemFacts.
Import PyStr OsPath.

Lemma substring_none (s : string) (i : nat) : substring i 0 s = ""%string.
Proof. revert i. induction s as [| a s IH]; intros [| i]; simpl; auto. Qed.

Lemma get_in_range (s : string) (i : nat) :
  (i < String.length s)%nat -> exists a, String.get i s = Some a.
Proof.
  revert i. induction s as [| a s IH]; intros i Hi; simpl in *; [lia |].
  destruct i as [| i]; [eauto | apply IH; lia].
Qed.

Lemma substring_cons (s : string) (i n : nat) (a : ascii) :
  String.get i s = Some a ->
  substring i (S n) s = String a (substring (S i) n s).
Proof.
  revert i. induction s as [| b s IH]; intros i H; [destruct i; discriminate |].
  destruct i as [| i]; simpl in H.
  - inversion H; subst b. reflexivity.
  - change (substring (S i) (S n) (String b s)) with (substring i (S n) s).
    rewrite (IH i H). reflexivity.
Qed.

(** The loop of [_splitext] finds a character other than a dot just when
    the stretch it scans is not made of dots only. *)
Lemma skip_leading_dots_spec (n : nat) (s : string) (i : nat) :
  (i + n <= String.length s)%nat ->
  skip_leading_dots n s "."%char (Z.of_nat i) (Z.of_nat (i + n))
  = negb (all_dots (substring i n s)).
Proof.
  revert i. induction n as [| n IH]; intros i Hi.
  - rewrite substring_none. reflexivity.
  - cbn [skip_leading_dots].
    replace (Z.of_nat i <? Z.of_nat (i + S n)) with true by (symmetry; apply Z.ltb_lt; lia).
    destruct (get_in_range s i) as [a Ha]; [lia |].
    unfold char_differs. rewrite Nat2Z.id, Ha, (substring_cons s i n a Ha).
    cbn [all_dots]. destruct (Ascii.eqb a "."%char); cbn [negb andb]; [| reflexivity].
    replace (Z.of_nat i + 1) with (Z.of_nat (S i)) by lia.
    replace (i + S n)%nat with (S i + n)%nat by lia.
    apply IH. lia.
Qed.

(** From the last [c] on, the string is [c] and what follows it. *)
Lemma substring_at_last (c : ascii) (s : string) (k : nat) :
  last_index c s = Some k ->
  substring k (String.length s - k) s
  = String c (substring (S k) (String.length s - S k) s).
Proof.
  intros H. pose proof (PathFacts.last_index_lt _ _ _ H) as Hlt.
  replace (String.length s - k)%nat with (S (String.length s - S k)) by lia.
  apply substring_cons.
  clear Hlt. revert k H. induction s as [| a s IH]; intros k; simpl; [discriminate |].
  destruct (last_index c s) as [j |] eqn:Hj.
  - intros H. inversion H; subst k. now apply IH.
  - destruct (Ascii.eqb a c) eqn:Hac; [| discriminate]. intros H. inversion H; subst k.
    apply Ascii.eqb_eq in Hac. now subst a.
Qed.

(** Up to and including the last [c], the string ends with [c]. *)
Lemma substring_to_last (c : ascii) (s : string) (k : nat) :
  last_index c s = Some k ->
  substring 0 (S k) s = (substring 0 k s ++ String c "")%string.
Proof.
  revert k. induction s as [| a s IH]; intros k; simpl; [discriminate |].
  destruct (last_index c s) as [j |] eqn:Hj.
  - intros H. inversion H; subst k. rewrite (IH j eq_refl). reflexivity.
  - destruct (Ascii.eqb a c) eqn:Hac; [| discriminate]. intros H. inversion H; subst k.
    apply Ascii.eqb_eq in Hac. subst a. destruct s; reflexivity.
Qed.

Lemma strip_leading_dots_app (a b : string) :
  all_dots a = true -> strip_leading_dots (a ++ b) = strip_leading_dots b.
Proof.
  induction a as [| x a IH]; simpl; [reflexivity |].
  destruct (Ascii.eqb x "."%char); simpl; [exact IH | discriminate].
Qed.

Lemma contains_strip_leading_dots (c : ascii) (s : string) :
  contains c s = false -> contains c (strip_leading_dots s) = false.
Proof.
  induction s as [| a s IH]; simpl; [reflexivity |].
  intros H. destruct (Ascii.eqb a "."%char); [| exact H].
  apply orb_false_iff in H. now apply IH.
Qed.

(** [posixpath.basename]: the directory part is empty or ends with the
    last slash of the path. *)
Lemma basename_after_last_slash (p : string) :
  exists dir, p = (dir ++ PosixPath.basename p)%string /\
              (dir = ""%string \/ exists d0, dir = (d0 ++ "/")%string) /\
              contains "/"%char (PosixPath.basename p) = false.
Proof.
  unfold PosixPath.basename, slice_from. rewrite PathFacts.rfind_last_index.
  destruct (last_index "/"%char p) as [k |] eqn:Hk.
  - replace (Z.to_nat (Z.of_nat k + 1)) with (S k) by lia.
    exists (substring 0 (S k) p). split; [| split].
    + symmetry. apply PathFacts.substring_split. apply PathFacts.last_index_lt in Hk. lia.
    + right. exists (substring 0 k p). now apply substring_to_last.
    + now apply PathFacts.contains_after_last.
  - exists ""%string. simpl. rewrite Nat.sub_0_r, PathFacts.substring_all.
    split; [reflexivity | split; [now left | now apply PathFacts.last_index_none]].
Qed.

(** [posixpath.splitext] on a file name: the extension runs from the last
    dot, unless the name has no dot or only dots before its last dot. *)
Lemma splitext_of_file_name (f : string) :
  contains "/"%char f = false ->
  let (root, ext) := splitext Posix f in
  f = (root ++ ext)%string /\
  ((exists rest, ext = String "."%char rest /\ contains "."%char rest = false /\
                 all_dots root = false)
   \/ (ext = ""%string /\ contains "."%char (strip_leading_dots root) = false)).
Proof.
  intros Hslash. apply PathFacts.last_index_none in Hslash.
  unfold splitext, _splitext. rewrite !PathFacts.rfind_last_index, Hslash.
  destruct (last_index "."%char f) as [k |] eqn:Hk.
  - pose proof (PathFacts.last_index_lt _ _ _ Hk) as Hlt.
    replace (Z.of_nat k >? -1) with true by (symmetry; rewrite Z.gtb_ltb; apply Z.ltb_lt; lia).
    replace (Z.to_nat (Z.of_nat k - (-1 + 1))) with k by lia.
    change (-1 + 1) with (Z.of_nat 0).
    pose proof (skip_leading_dots_spec k f 0) as Hskip. cbn [Nat.add] in Hskip.
    rewrite Hskip by lia. cbn [andb].
    pose proof (PathFacts.substring_split f k) as Hcat.
    rewrite (substring_at_last _ _ _ Hk) in Hcat.
    pose proof (PathFacts.contains_after_last _ _ _ Hk) as Hrest.
    destruct (all_dots (substring 0 k f)) eqn:Hdots; cbn [negb].
    + split; [now rewrite PathFacts.append_empty_r |]. right. split; [reflexivity |].
      rewrite <- Hcat by lia. rewrite strip_leading_dots_app by assumption.
      cbn [strip_leading_dots]. rewrite Ascii.eqb_refl.
      now apply contains_strip_leading_dots.
    + unfold slice_to, slice_from. rewrite Nat2Z.id.
      rewrite (substring_at_last _ _ _ Hk).
      split; [symmetry; apply Hcat; lia |]. left. eauto.
  - apply PathFacts.last_index_none in Hk.
    replace (-1 >? -1) with false by reflexivity. cbn [andb].
    split; [now rewrite PathFacts.append_empty_r |]. right. split; [reflexivity |].
    now apply contains_strip_leading_dots.
Qed.

End StemFacts.

(** X10. With the repository name still empty, on POSIX, [set_archive_path]
    fills it in with the file name less its last extension, and the archive
    field takes the path as given.  The path is a directory part, empty or
    ending with a slash, then the suggested name, then the extension, and
    neither name nor extension holds a slash.  Either the extension is the
    last dot of the file name and what follows it, and the name before it
    is not made of dots only; or there is no extension, and the file name
    has no dot but leading ones. *)
Theorem set_archive_path_suggests_base_name :
  forall (nt_basename : string -> string) (path : string) (win : Window),
    repo_name_edit (form win) = "" ->
    let win' := set_archive_path OsPath.Posix nt_basename path win in
    let name := repo_name_edit (form win') in
    archive_path_edit (form win') = path /\
    exists dir ext,
      path = dir ++ name ++ ext /\
      (dir = "" \/ exists d0, dir = d0 ++ "/") /\
      contains "/"%char name = false /\
      contains "/"%char ext = false /\
      ((exists rest, ext = String "."%char rest /\ contains "."%char rest = false /\
                     all_dots name = false)
       \/ (ext = "" /\ contains "."%char (strip_leading_dots name) = false)).
Proof.
  intros nb path win Hempty win' name.
  destruct (StemFacts.basename_after_last_slash path) as (dir & Hpath & Hdir & Hslash).
  pose proof (StemFacts.splitext_of_file_name (PosixPath.basename path) Hslash) as Hsplit.
  pose proof (PathFacts._splitext_spec (PosixPath.basename path) "/"%char None) as Hparts.
  assert (Hname : name = fst (OsPath.splitext OsPath.Posix (PosixPath.basename path)) /\
                  archive_path_edit (form win') = path).
  { subst name win'. unfold set_archive_path, os_basename. cbn [form with_form set_archive_path_text
      repo_name_edit]. rewrite Hempty. cbn [truthy negb]. rewrite andb_true_r.
    destruct (fst (OsPath.splitext OsPath.Posix (PosixPath.basename path))) eqn:Hb;
      cbn [truthy]; split; try reflexivity.
    cbn [form with_form set_archive_path_text repo_name_edit]. exact Hempty. }
  destruct Hname as [Hname Harch]. split; [exact Harch |].
  rewrite Hname. clear Hname. unfold OsPath.splitext in *.
  destruct (OsPath._splitext (PosixPath.basename path) "/" None ".") as [root ext].
  destruct Hsplit as (Hcat & Hext). destruct Hparts as (_ & _ & Hsub). cbn [fst].
  destruct (Hsub "/"%char Hslash) as [Hroot Hextslash].
  exists dir, ext. repeat split; try assumption.
  rewrite <- Hcat. exact Hpath.
Qed.

Lemma set_archive_path_suggests_base_name_witness :
  let win' := set_archive_path OsPath.Posix (fun p => p) "/home/user/my.project.tar.gz"
                               MockWindow.fresh in
  repo_name_edit (form MockWindow.fresh) = "" /\
  archive_path_edit (form win') = "/home/user/my.project.tar.gz" /\
  exists dir ext,
    "/home/user/my.project.tar.gz" = dir ++ repo_name_edit (form win') ++ ext /\
    (dir = "" \/ exists d0, dir = d0 ++ "/") /\
    contains "/"%char (repo_name_edit (form win')) = false /\
    contains "/"%char ext = false /\
    ((exists rest, ext = String "."%char rest /\ contains "."%char rest = false /\
                   all_dots (repo_name_edit (form win')) = false)
     \/ (ext = "" /\
         contains "."%char (strip_leading_dots (repo_name_edit (form win'))) = false)).
Proof.
  split; [reflexivity |].
  apply (set_archive_path_suggests_base_name (fun p => p) "/home/user/my.project.tar.gz"
           MockWindow.fresh).
  reflexivity.
Defined.

Example suggested_name_of_tar_gz :
  repo_name_edit
    (form (set_archive_path OsPath.Posix (fun p => p) "/home/user/my.project.tar.gz"
                            MockWindow.fresh))
  = "my.project.tar".
Proof. reflexivity. Qed.

Example suggested_name_of_dot_file :
  repo_name_edit
    (form (set_archive_path OsPath.Posix (fun p => p) "/home/user/.bashrc" MockWindow.fresh))
  = ".bashrc" /\
  repo_name_edit
    (form (set_archive_path OsPath.Posix (fun p => p) "/home/user/" MockWindow.fresh))
  = "" /\
  repo_name_edit
    (form (set_archive_path OsPath.Posix (fun p => p) "project.zip" MockWindow.fresh))
  = "project".
Proof. repeat split. Qed.

(** X11. A drop touches the archive field, the highlight of the drop area
    and an empty repository name, and nothing else: a repository name that
    was typed stays, and so do the account fields, the check boxes, the
    controls, the progress bar, the status box, the settings, the worker
    and the message boxes. *)
Theorem drop_changes_archive_only :
  forall (os : OsPath.flavour) (nt_basename : string -> string) (urls : list qurl)
         (win : Window),
    repo_name_edit (form win) <> "" ->
    let win' := dropEvent os nt_basename urls win in
    repo_name_edit (form win') = repo_name_edit (form win) /\
    github_username_edit (form win') = github_username_edit (form win) /\
    github_token_edit (form win') = github_token_edit (form win) /\
    private_repo_checkbox (form win') = private_repo_checkbox (form win) /\
    save_username_checkbox (form win') = save_username_checkbox (form win) /\
    controls_enabled win' = controls_enabled win /\
    progress_bar win' = progress_bar win /\
    status_text win' = status_text win /\
    settings win' = settings win /\
    worker win' = worker win /\
    message_boxes win' = message_boxes win /\
    (forall url rest, urls = url :: rest ->
                      archive_path_edit (form win') = toLocalFile url /\
                      drop_highlighted win' = false).
Proof.
  intros os nb urls win Hname win'. subst win'.
  apply truthy_true in Hname.
  destruct urls as [| url rest]; cbn [dropEvent].
  - repeat split; discriminate.
  - unfold set_archive_path.
    cbn [form with_form set_archive_path_text repo_name_edit].
    rewrite Hname. cbn [negb]. rewrite andb_false_r.
    repeat split;
      match goal with
      | Heq : _ :: _ = _ :: _ |- _ => inversion Heq; subst; reflexivity
      end.
Qed.

Lemma drop_changes_archive_only_witness :
  repo_name_edit
    (form (dropEvent OsPath.Posix (fun p => p)
                     [LocalFileUrl "/home/user/other.zip"; LocalFileUrl "/home/user/more.zip"]
                     MockWindow.window))
  = "project".
Proof.
  destruct (drop_changes_archive_only OsPath.Posix (fun p => p)
              [LocalFileUrl "/home/user/other.zip"; LocalFileUrl "/home/user/more.zip"]
              MockWindow.window) as (Hname & _).
  - discriminate.
  - exact Hname.
Defined.

(** X12. A cancelled file dialog leaves the window as it was; a drop whose
    first URL is not a local file empties the archive field, whatever was
    selected before, and the next click on the upload button is refused
    with "Please select an archive file.". *)
Theorem drop_of_other_url_empties_archive :
  forall (W : Type) (env : Env W) (w : W) (os : OsPath.flavour)
         (nt_basename : string -> string) (address : string) (rest : list qurl)
         (win : Window),
    browse_archive os nt_basename "" win = win /\
    archive_path_edit (form (dropEvent os nt_basename (OtherUrl address :: rest) win)) = "" /\
    upload_to_github env (form (dropEvent os nt_basename (OtherUrl address :: rest) win)) w =
    [MessageBoxWarning "Error" "Please select an archive file."].
Proof.
  intros W env w os nb address rest win.
  split; [reflexivity |].
  assert (Harch : archive_path_edit
                    (form (dropEvent os nb (OtherUrl address :: rest) win)) = "").
  { cbn [dropEvent toLocalFile]. unfold set_archive_path.
    match goal with |- context [if ?b then _ else _] => destruct b end; reflexivity. }
  split; [exact Harch |].
  unfold upload_to_github. rewrite Harch. reflexivity.
Qed.

(** X13. A click on a form without defect changes the window in this way
    and no other: the controls are disabled, the status box is emptied, the
    progress bar goes to 0, the worker gets the five values of the form,
    no box is shown, and the account name is stored or dropped from the
    settings as the check box says, so that the next window starts with it
    or with an empty field. *)
Theorem click_upload_starts_worker :
  forall (W : Type) (env : Env W) (w : W) (win : Window),
    (forall d, ~ has_defect env (form win) w d) ->
    let win' := click_upload env w win in
    controls_enabled win' = false /\
    status_text win' = [] /\
    progress_bar win' = 0 /\
    worker win' = Some (job_of_form (form win)) /\
    message_boxes win' = message_boxes win /\
    form win' = form win /\
    github_username_edit (form (new_window (settings win'))) =
    (if save_username_checkbox (form win) then github_username_edit (form win) else "").
Proof.
  intros W env w win Hok win'. subst win'.
  rewrite (click_upload_accepted env w win Hok).
  repeat split.
  rewrite new_window_username. cbn [settings with_worker set_ui_enabled].
  unfold progress_bar_setValue. cbn [Z.leb Z.compare andb settings with_status_text with_settings].
  destruct (save_username_checkbox (form win)).
  - apply settings_value_setValue.
  - apply settings_value_remove.
Qed.

Lemma click_upload_starts_worker_witness :
  controls_enabled (click_upload Mock.env MockWindow.disk MockWindow.window) = false /\
  status_text (click_upload Mock.env MockWindow.disk MockWindow.window) = [] /\
  progress_bar (click_upload Mock.env MockWindow.disk MockWindow.window) = 0 /\
  worker (click_upload Mock.env MockWindow.disk MockWindow.window)
  = Some (job_of_form MockWindow.complete_form).
Proof.
  destruct (click_upload_starts_worker Mock.world Mock.env MockWindow.disk MockWindow.window)
    as (H1 & H2 & H3 & H4 & _).
  - intros []; simpl; discriminate.
  - repeat split; assumption.
Defined.

(** X14. A click on a form with a defect shows the one warning and leaves
    the rest of the window as it was: the controls stay enabled, progress
    bar, status box, settings, form and worker are untouched. *)
Theorem click_upload_refused_changes_nothing :
  forall (W : Type) (env : Env W) (w : W) (win : Window) (d : defect),
    has_defect env (form win) w d ->
    exists first,
      has_defect env (form win) w first /\
      click_upload env w win =
      show_message_box (BoxWarning "Error" (rejection_message first)) win.
Proof.
  intros W env w win d Hd.
  destruct (upload_to_github_refuses env (form win) w d Hd) as (first & Hfirst & Hacts).
  exists first. split; [exact Hfirst |].
  unfold click_upload. rewrite Hacts. reflexivity.
Qed.

Lemma click_upload_refused_changes_nothing_witness :
  exists first,
    has_defect Mock.env (form MockWindow.window) [] first /\
    click_upload Mock.env [] MockWindow.window =
    show_message_box (BoxWarning "Error" (rejection_message first)) MockWindow.window.
Proof.
  apply (click_upload_refused_changes_nothing Mock.world Mock.env [] MockWindow.window
           ArchiveMissing).
  reflexivity.
Defined.

(** X15. The account name a new window starts with is the one in the field
    of the window closed before it when "Remember GitHub Username" was
    checked there; when it was not, closing stores nothing and forgets
    nothing, and the new window starts with the name stored earlier. *)
Theorem closeEvent_then_new_window :
  forall (win : Window),
    github_username_edit (form (new_window (settings (closeEvent win)))) =
    (if save_username_checkbox (form win)
     then github_username_edit (form win)
     else settings_value (settings win) "github_username" "").
Proof.
  intros win. rewrite new_window_username. unfold closeEvent.
  destruct (save_username_checkbox (form win)); cbn [settings with_settings].
  - apply settings_value_setValue.
  - reflexivity.
Qed.

(** X16. A click on a form without defect, followed by the run it starts
    with the signals delivered in the order emitted, ends with the
    controls enabled again, whatever the outcome; the status box holds the
    status lines of this run and no older one, the progress bar stands at
    the last value emitted (at 0 if none was), exactly one box has been
    added, the one for the outcome, and the form is as it was. *)
Theorem upload_session_ends_enabled :
  forall (W : Type) (env : Env W) (w_click w_run : W) (win : Window),
    (forall d, ~ has_defect env (form win) w_click d) ->
    let tr := run_trace env (job_of_form (form win)) w_run in
    let win' := upload_session env w_click w_run win in
    controls_enabled win' = true /\
    status_text win' = status_log tr /\
    progress_bar win' = last (progress_log tr) 0 /\
    (exists o, outcome tr = Some o /\
               message_boxes win' = (message_boxes win ++ [result_box o])%list) /\
    form win' = form win.
Proof.
  intros W env w_click w_run win Hok tr win'. subst tr win'.
  unfold upload_session. cbv zeta.
  assert (Hjob : started_job (upload_to_github env (form win) w_click)
                 = Some (job_of_form (form win))).
  { rewrite (upload_to_github_accepts env _ w_click Hok).
    destruct (save_username_checkbox (form win)); reflexivity. }
  rewrite Hjob.
  destruct (click_upload_starts_worker_facts env w_click win Hok)
    as (Hst & Hpb & Hmb & Hform).
  destruct (run_trace_for_window env (job_of_form (form win)) w_run)
    as (o & Hout & Hbox & Hex & Hrange).
  destruct (deliver_all_frame (run_trace env (job_of_form (form win)) w_run)
              (click_upload env w_click win)) as (Hf & _).
  rewrite deliver_all_controls_enabled, Hex.
  rewrite deliver_all_status_text, Hst.
  rewrite (deliver_all_progress_bar _ _ Hrange), Hpb.
  rewrite deliver_all_message_boxes, Hmb, Hbox, Hf, Hform.
  repeat split. exists o. split; [exact Hout | reflexivity].
Qed.

Lemma upload_session_ends_enabled_witness :
  controls_enabled (upload_session Mock.env MockWindow.disk [] MockWindow.window) = true /\
  progress_bar (upload_session Mock.env MockWindow.disk [] MockWindow.window) = 100 /\
  message_boxes (upload_session Mock.env MockWindow.disk [] MockWindow.window)
  = [BoxInformation "Success" "Successfully uploaded to https://example.test/user/myproj"].
Proof.
  destruct (upload_session_ends_enabled Mock.world Mock.env MockWindow.disk []
              MockWindow.window) as (Hen & _ & Hpb & (o & Hout & Hbox) & _).
  - intros []; simpl; discriminate.
  - split; [exact Hen | split; [exact Hpb |]].
    rewrite Hbox. vm_compute in Hout. inversion Hout. reflexivity.
Defined.
